(** * cafetch: a host-information collector and its presenter

    Shallow embedding of [cafetch.go].  The program reads a handful of
    pseudo-files, environment variables, one command and one [statfs]
    result, builds a [SystemInfo] record and prints it next to a logo.

    Conventions of the embedding:
    - a Go [string] is a sequence of bytes: [String.string];
    - a Go [int] is a 64-bit signed integer (the model fixes a 64-bit
      target, as [syscall.Statfs_t] of linux/amd64 does), carried in [Z]
      with the wrap-around written out where an operation can leave the
      range;
    - a [float64] is an IEEE 754 binary64 value: [spec_float] of the
      standard library with precision 53 and maximal exponent 1024;
    - a run-time panic (index out of range) is a result of its own,
      [Panic], threaded through the code by a small monad;
    - the host (files, environment, command, filesystem statistics, clock)
      is an explicit record passed to every resolver. *)

From Stdlib Require Import ZArith List String Ascii Bool Lia.
From Stdlib Require Import DecimalString SpecFloat.
Import ListNotations.

Open Scope string_scope.
Open Scope Z_scope.

(** ** Run-time results *)

Inductive go (A : Type) : Type :=
| Ret (a : A)
| Panic (why : string).

Arguments Ret {A} a.
Arguments Panic {A} why.

Definition bind {A B : Type} (m : go A) (k : A -> go B) : go B :=
  match m with
  | Ret a => k a
  | Panic why => Panic why
  end.

Notation "x <- m ;; k" := (bind m (fun x => k))
  (at level 61, m at next level, right associativity).

(** [xs[i]]: indexing a slice panics out of range. *)
Definition index {A : Type} (xs : list A) (i : nat) : go A :=
  match nth_error xs i with
  | Some x => Ret x
  | None => Panic "index out of range"
  end.

(** ** Bytes and characters *)

Definition byteval (c : ascii) : Z := Z.of_N (N_of_ascii c).

Definition NL : ascii := ascii_of_nat 10.
Definition CR : ascii := ascii_of_nat 13.
Definition ESC : ascii := ascii_of_nat 27.
Definition DQUOTE : ascii := ascii_of_nat 34.

(** ** Package [unicode/utf8] *)

Module utf8.

Definition RuneError : Z := 65533.

(** The table [first] of the package: what a leading byte announces. *)
Inductive lead : Type :=
| ASCII
| Invalid
| Seq (size : nat) (lo hi : Z).

Definition first (b : Z) : lead :=
  if b <? 128 then ASCII
  else if b <? 194 then Invalid
  else if b <? 224 then Seq 2 128 191
  else if b =? 224 then Seq 3 160 191
  else if b <? 237 then Seq 3 128 191
  else if b =? 237 then Seq 3 128 159
  else if b <? 240 then Seq 3 128 191
  else if b =? 240 then Seq 4 144 191
  else if b <? 244 then Seq 4 128 191
  else if b =? 244 then Seq 4 128 143
  else Invalid.

Definition cont (b : Z) : bool := (128 <=? b) && (b <=? 191).

(** [DecodeRuneInString]: the first rune of [s] and its width in bytes;
    an invalid or short encoding is [RuneError] of width 1. *)
Definition DecodeRuneInString (s : string) : Z * nat :=
  match s with
  | EmptyString => (RuneError, 0%nat)
  | String c0 t0 =>
    let s0 := byteval c0 in
    match first s0 with
    | ASCII => (s0, 1%nat)
    | Invalid => (RuneError, 1%nat)
    | Seq sz lo hi =>
      match t0 with
      | EmptyString => (RuneError, 1%nat)
      | String c1 t1 =>
        let s1 := byteval c1 in
        if (String.length s <? sz)%nat then (RuneError, 1%nat)
        else if (s1 <? lo) || (hi <? s1) then (RuneError, 1%nat)
        else if (sz <=? 2)%nat then
          (Z.lor (Z.shiftl (Z.land s0 31) 6) (Z.land s1 63), 2%nat)
        else
          match t1 with
          | EmptyString => (RuneError, 1%nat)
          | String c2 t2 =>
            let s2 := byteval c2 in
            if negb (cont s2) then (RuneError, 1%nat)
            else if (sz <=? 3)%nat then
              (Z.lor (Z.shiftl (Z.land s0 15) 12)
                 (Z.lor (Z.shiftl (Z.land s1 63) 6) (Z.land s2 63)), 3%nat)
            else
              match t2 with
              | EmptyString => (RuneError, 1%nat)
              | String c3 _ =>
                let s3 := byteval c3 in
                if negb (cont s3) then (RuneError, 1%nat)
                else
                  (Z.lor (Z.shiftl (Z.land s0 7) 18)
                     (Z.lor (Z.shiftl (Z.land s1 63) 12)
                        (Z.lor (Z.shiftl (Z.land s2 63) 6) (Z.land s3 63))),
                   4%nat)
              end
          end
      end
    end
  end.

(** The runes of [s] in order, each with the bytes that encode it: what
    [for _, r := range s] walks through.  [skip] counts the bytes of the
    current rune still to pass over. *)
Fixpoint runesFrom (skip : nat) (s : string) : list (Z * string) :=
  match s with
  | EmptyString => []
  | String _ t =>
    match skip with
    | S k => runesFrom k t
    | O =>
      let '(r, sz) := DecodeRuneInString s in
      (r, substring 0 sz s) :: runesFrom (sz - 1) t
    end
  end.

Definition runes (s : string) : list (Z * string) := runesFrom 0 s.

Definition RuneCountInString (s : string) : nat := List.length (runes s).

End utf8.

(** ** Package [unicode] *)

Module unicode.

(** [IsSpace]: the Latin-1 spaces and the other code points of the
    White_Space property. *)
Definition IsSpace (r : Z) : bool :=
  (r =? 9) || (r =? 10) || (r =? 11) || (r =? 12) || (r =? 13) ||
  (r =? 32) || (r =? 133) || (r =? 160) ||
  (r =? 5760) || ((8192 <=? r) && (r <=? 8202)) ||
  (r =? 8232) || (r =? 8233) || (r =? 8239) || (r =? 8287) ||
  (r =? 12288).

End unicode.

(** ** Package [strings] *)

Module strings.

(** [HasPrefix s p]: [s] begins with [p]. *)
Definition HasPrefix (s p : string) : bool := String.prefix p s.

Fixpoint drop (n : nat) (s : string) : string :=
  match n, s with
  | O, _ => s
  | S k, EmptyString => EmptyString
  | S k, String _ t => drop k t
  end.

Definition TrimPrefix (s p : string) : string :=
  if HasPrefix s p then drop (String.length p) s else s.

Fixpoint mem (c : ascii) (set : string) : bool :=
  match set with
  | EmptyString => false
  | String d t => Ascii.eqb c d || mem c t
  end.

Fixpoint trimLeftBytes (set s : string) : string :=
  match s with
  | EmptyString => EmptyString
  | String c t => if mem c set then trimLeftBytes set t else s
  end.

(** Right trimming: a byte stays when it is outside the set or when
    something that stays follows it. *)
Fixpoint trimRightBytes (set s : string) : string :=
  match s with
  | EmptyString => EmptyString
  | String c t =>
    match trimRightBytes set t with
    | EmptyString => if mem c set then EmptyString else String c EmptyString
    | t' => String c t'
    end
  end.

(** [Trim s cutset] for a cutset of ASCII bytes, the only use the program
    makes of it: all leading and trailing bytes of the cutset go. *)
Definition Trim (s cutset : string) : string :=
  trimRightBytes cutset (trimLeftBytes cutset s).

Definition isSpaceRune (x : Z * string) : bool := unicode.IsSpace (fst x).

Fixpoint dropWhile {A : Type} (f : A -> bool) (xs : list A) : list A :=
  match xs with
  | [] => []
  | x :: t => if f x then dropWhile f t else xs
  end.

Definition dropWhileEnd {A : Type} (f : A -> bool) (xs : list A) : list A :=
  rev (dropWhile f (rev xs)).

Definition bytesOf (rs : list (Z * string)) : string :=
  String.concat "" (map snd rs).

(** [TrimSpace]: leading and trailing white space, as [unicode.IsSpace]
    defines it, removed.  The package walks the tail backwards with
    [DecodeLastRuneInString]; the rune boundaries it finds are those of
    the forward walk, since a multi-byte encoding never extends over a
    byte that can start a rune. *)
Definition TrimSpace (s : string) : string :=
  bytesOf (dropWhileEnd isSpaceRune (dropWhile isSpaceRune (utf8.runes s))).

(** [Fields]: the maximal runs of non-space runes.  [cur] is the field
    under construction, if any. *)
Fixpoint fieldsOf (cur : option string) (rs : list (Z * string)) : list string :=
  match rs with
  | [] => match cur with Some f => [f] | None => [] end
  | x :: t =>
    if isSpaceRune x then
      match cur with
      | Some f => f :: fieldsOf None t
      | None => fieldsOf None t
      end
    else
      match cur with
      | Some f => fieldsOf (Some (f ++ snd x)) t
      | None => fieldsOf (Some (snd x)) t
      end
  end.

Definition Fields (s : string) : list string := fieldsOf None (utf8.runes s).

(** [cut sep s]: the parts of [s] before and after the first occurrence
    of the non-empty separator [sep], if there is one. *)
Fixpoint cut (sep s : string) : option (string * string) :=
  if HasPrefix s sep then Some (EmptyString, drop (String.length sep) s)
  else
    match s with
    | EmptyString => None
    | String c t =>
      match cut sep t with
      | Some (a, b) => Some (String c a, b)
      | None => None
      end
    end.

(** [SplitN s sep n] for a non-empty [sep] and [n >= 0]: at most [n]
    pieces, the last one the unsplit remainder. *)
Fixpoint SplitN (s sep : string) (n : nat) : list string :=
  match n with
  | O => []
  | S O => [s]
  | S k =>
    match cut sep s with
    | Some (a, b) => a :: SplitN b sep k
    | None => [s]
    end
  end.

End strings.

(** ** Package [strconv] *)

Module strconv.

Definition isDigit (c : ascii) : bool :=
  (48 <=? byteval c) && (byteval c <=? 57).

Definition maxUint64 : Z := 2 ^ 64 - 1.

Inductive uintResult : Type :=
| UOk (n : Z)
| USyntax
| URange.

(** The digit loop of [ParseUint] in base 10 at 64 bits: it stops with a
    range error as soon as the accumulator would overflow, before it
    looks at the rest of the string. *)
Fixpoint parseUintLoop (n : Z) (s : string) : uintResult :=
  match s with
  | EmptyString => UOk n
  | String c t =>
    if isDigit c then
      if n >=? maxUint64 / 10 + 1 then URange
      else
        let n1 := n * 10 + (byteval c - 48) in
        if n1 >? maxUint64 then URange else parseUintLoop n1 t
    else USyntax
  end.

Definition ParseUint (s : string) : uintResult :=
  match s with
  | EmptyString => USyntax
  | _ => parseUintLoop 0 s
  end.

(** [Atoi s]: the value and whether the conversion succeeded.  It is
    [ParseInt(s, 10, 0)]; the fast path of the package for short strings
    gives the same answers.  A syntax error gives 0, a range error the
    nearest bound. *)
Definition Atoi (s : string) : Z * bool :=
  match s with
  | EmptyString => (0, false)
  | String c t =>
    let neg := Ascii.eqb c "-" in
    let body := if Ascii.eqb c "+" || Ascii.eqb c "-" then t else s in
    match ParseUint body with
    | USyntax => (0, false)
    | URange => if neg then (- 2 ^ 63, false) else (2 ^ 63 - 1, false)
    | UOk un =>
      if negb neg && (un >=? 2 ^ 63) then (2 ^ 63 - 1, false)
      else if neg && (un >? 2 ^ 63) then (- 2 ^ 63, false)
      else (if neg then - un else un, true)
    end
  end.

End strconv.

(** ** Package [bufio] *)

Module bufio.

Definition MaxScanTokenSize : Z := 65536.

(** The pieces of [s] between line feeds; a final piece without a line
    feed counts when it is not empty. *)
Fixpoint rawLines (s : string) : list string :=
  match s with
  | EmptyString => []
  | String c t =>
    if Ascii.eqb c NL then EmptyString :: rawLines t
    else
      match rawLines t with
      | [] => [String c EmptyString]
      | l :: ls => String c l :: ls
      end
  end.

Fixpoint takeWhile {A : Type} (f : A -> bool) (xs : list A) : list A :=
  match xs with
  | [] => []
  | x :: t => if f x then x :: takeWhile f t else []
  end.

Definition fits (l : string) : bool :=
  Z.of_nat (String.length l) <? MaxScanTokenSize.

(** [dropCR]: one trailing carriage return goes. *)
Fixpoint dropCR (l : string) : string :=
  match l with
  | EmptyString => EmptyString
  | String c EmptyString => if Ascii.eqb c CR then EmptyString else l
  | String c t => String c (dropCR t)
  end.

(** The tokens a [Scanner] with the default split function and buffer
    delivers over the content [s]: the lines without their end-of-line
    marker, up to the first line that does not fit the buffer, where
    [Scan] reports false for good. *)
Definition scanLines (s : string) : list string :=
  map dropCR (takeWhile fits (rawLines s)).

End bufio.

(** ** Machine integers *)

(** A value brought back into the range of a signed 64-bit integer. *)
Definition wrap64 (z : Z) : Z := (z + 2 ^ 63) mod 2 ^ 64 - 2 ^ 63.

(** A value brought back into the range of an unsigned 64-bit integer. *)
Definition wrapU64 (z : Z) : Z := z mod 2 ^ 64.

Definition inInt64 (z : Z) : bool := (- 2 ^ 63 <=? z) && (z <? 2 ^ 63).

(** ** The type [float64] *)

Module float64.

Definition prec : Z := 53.
Definition emax : Z := 1024.

(** [float64(n)] for an integer [n]: the nearest binary64 value, ties to
    even. *)
Definition ofZ (n : Z) : spec_float := binary_normalize prec emax n 0 false.

Definition div (x y : spec_float) : spec_float := SFdiv prec emax x y.
Definition mul (x y : spec_float) : spec_float := SFmul prec emax x y.

Definition zero : spec_float := S754_zero false.

(** The integer part of a finite value, rounded toward zero. *)
Definition truncate (f : spec_float) : option Z :=
  match f with
  | S754_zero _ => Some 0
  | S754_finite s m e =>
    let a := Z.shiftl (Zpos m) e in
    Some (if s then - a else a)
  | S754_infinity _ => None
  | S754_nan => None
  end.

(** [int(f)]: the truncation when an [int] can hold it.  Otherwise the
    language leaves the value to the implementation: [other] stands for
    that choice. *)
Definition toInt (other : spec_float -> Z) (f : spec_float) : Z :=
  match truncate f with
  | Some z => if inInt64 z then z else wrap64 (other f)
  | None => wrap64 (other f)
  end.

End float64.

(** ** Package [fmt] *)

Module fmt.

(** The verb [%d]. *)
Definition d (z : Z) : string := NilZero.string_of_int (Z.to_int z).

(** [num / den] rounded to the nearest integer, ties to even, for
    [0 <= num] and [0 < den]. *)
Definition roundHalfEven (num den : Z) : Z :=
  let q := num / den in
  match 2 * (num mod den) ?= den with
  | Lt => q
  | Gt => q + 1
  | Eq => if Z.even q then q else q + 1
  end.

(** The verb [%.1f]: the exact value rounded to one decimal, ties to
    even. *)
Definition f1 (f : spec_float) : string :=
  match f with
  | S754_nan => "NaN"
  | S754_infinity s => if s then "-Inf" else "Inf"
  | S754_zero s => (if s then "-" else "") ++ "0.0"
  | S754_finite s m e =>
    let tenths :=
      if 0 <=? e then Zpos m * 2 ^ e * 10
      else roundHalfEven (Zpos m * 10) (2 ^ (- e)) in
    (if s then "-" else "") ++ d (tenths / 10) ++ "." ++ d (tenths mod 10)
  end.

Fixpoint spaces (n : nat) : string :=
  match n with
  | O => EmptyString
  | S k => String " " (spaces k)
  end.

(** The verb [%-20s] and its like: the string, then spaces up to [w]
    runes. *)
Definition padRight (w : nat) (s : string) : string :=
  s ++ spaces (w - utf8.RuneCountInString s).

End fmt.

(** ** What the build and the run-time library bring *)

Class Platform : Type := {
  (** [runtime.GOOS], [runtime.GOARCH] and [runtime.Version()] *)
  GOOS : string;
  GOARCH : string;
  GoVersion : string;
  (** [strconv.ParseFloat(s, 64)]: the value, or nothing when the call
      returns an error *)
  ParseFloat : string -> option spec_float;
  (** what [int(f)] gives when an [int] cannot hold [f] *)
  intOfOther : spec_float -> Z
}.

(** ** The host *)

(** The result of [syscall.Statfs], the fields the program reads:
    [Blocks] and [Bavail] are [uint64], [Bsize] is [int64]. *)
Record Statfs_t : Type := {
  Blocks : Z;
  Bsize : Z;
  Bavail : Z
}.

Record HostEnv : Type := {
  (** the content of a file that opens and reads, by path *)
  file : string -> option string;
  (** the environment: the value of a variable that is set *)
  env : string -> option string;
  (** the standard output of a command with its arguments when it runs
      and exits with success *)
  command : string -> list string -> option string;
  (** the filesystem statistics of a path when the call succeeds *)
  statfs : string -> option Statfs_t;
  (** [time.Now()] in the layout [2006-01-02 15:04:05] *)
  now : string
}.

(** [os.Getenv]: the empty string for a variable that is not set. *)
Definition Getenv (h : HostEnv) (key : string) : string :=
  match env h key with
  | Some v => v
  | None => EmptyString
  end.

(** ** The program *)

Record SystemInfo : Type := {
  OS : string;
  Kernel : string;
  Arch : string;
  Host : string;
  User : string;
  Shell : string;
  Term : string;
  CPU : string;
  Uptime : string;
  MemUsed : Z;
  MemTotal : Z;
  DiskUsed : Z;
  DiskTotal : Z
}.

Section Program.

Context {P : Platform}.
Variable h : HostEnv.

(** [runCmd] runs a command and returns its trimmed output. *)
Definition runCmd (name : string) (args : list string) : string :=
  match command h name args with
  | None => "N/A"
  | Some out => strings.TrimSpace out
  end.

(** [getEnvOrDefault] reads an environment variable or falls back. *)
Definition getEnvOrDefault (key defaultVal : string) : string :=
  let val := Getenv h key in
  if String.eqb val EmptyString then defaultVal else val.

(** The scanner loop of [getOS]: the value it returns from inside the
    loop, if it does. *)
Fixpoint getOS_scan (lines : list string) : option string :=
  match lines with
  | [] => None
  | line :: rest =>
    if strings.HasPrefix line "PRETTY_NAME=" then
      Some (strings.Trim (strings.TrimPrefix line "PRETTY_NAME=")
              (String DQUOTE EmptyString))
    else getOS_scan rest
  end.

Definition getOS : string :=
  match file h "/etc/os-release" with
  | None => GOOS
  | Some content =>
    match getOS_scan (bufio.scanLines content) with
    | Some name => name
    | None => GOOS
    end
  end.

(** The scanner loop of [getCPU]. *)
Fixpoint getCPU_scan (lines : list string) : go (option string) :=
  match lines with
  | [] => Ret None
  | line :: rest =>
    if strings.HasPrefix line "model name" then
      let parts := strings.SplitN line ":" 2 in
      if (List.length parts =? 2)%nat then
        p1 <- index parts 1 ;;
        Ret (Some (strings.TrimSpace p1))
      else getCPU_scan rest
    else getCPU_scan rest
  end.

Definition getCPU : go string :=
  match file h "/proc/cpuinfo" with
  | None => Ret "N/A"
  | Some content =>
    found <- getCPU_scan (bufio.scanLines content) ;;
    match found with
    | Some model => Ret model
    | None => Ret "N/A"
    end
  end.

(** The last lines of [getUptime]: seconds to days, hours and minutes.
    [/] and [%] of Go truncate toward zero. *)
Definition formatUptime (s : Z) : string :=
  let days := Z.quot s 86400 in
  let hours := Z.quot (Z.rem s 86400) 3600 in
  let minutes := Z.quot (Z.rem s 3600) 60 in
  if days >? 0 then
    fmt.d days ++ "d " ++ fmt.d hours ++ "h " ++ fmt.d minutes ++ "m"
  else
    fmt.d hours ++ "h " ++ fmt.d minutes ++ "m".

Definition getUptime : go string :=
  match file h "/proc/uptime" with
  | None => Ret "N/A"
  | Some data =>
    let fields := strings.Fields data in
    if (List.length fields =? 0)%nat then Ret "N/A"
    else
      f0 <- index fields 0 ;;
      match ParseFloat f0 with
      | None => Ret "N/A"
      | Some seconds => Ret (formatUptime (float64.toInt intOfOther seconds))
      end
  end.

(** The scanner loop of [getMemory] over the variables [memTotal] and
    [memAvail]: [continue] on a short line, [break] once both are
    positive. *)
Fixpoint getMemory_scan (lines : list string) (memTotal memAvail : Z)
  : go (Z * Z) :=
  match lines with
  | [] => Ret (memTotal, memAvail)
  | line :: rest =>
    let fields := strings.Fields line in
    if (List.length fields <? 2)%nat then getMemory_scan rest memTotal memAvail
    else
      f1 <- index fields 1 ;;
      let val := fst (strconv.Atoi f1) in
      let memTotal :=
        if strings.HasPrefix line "MemTotal:" then val else memTotal in
      let memAvail :=
        if strings.HasPrefix line "MemAvailable:" then val else memAvail in
      if (memTotal >? 0) && (memAvail >? 0) then Ret (memTotal, memAvail)
      else getMemory_scan rest memTotal memAvail
  end.

(** [getMemory]: total and used memory in MB. *)
Definition getMemory : go (Z * Z) :=
  match file h "/proc/meminfo" with
  | None => Ret (0, 0)
  | Some content =>
    m <- getMemory_scan (bufio.scanLines content) 0 0 ;;
    let '(memTotal, memAvail) := m in
    let total := Z.quot memTotal 1024 in
    let used := wrap64 (total - Z.quot memAvail 1024) in
    Ret (total, used)
  end.

(** [getDisk]: total and used space of the disk in GB. *)
Definition getDisk (path : string) : Z * Z :=
  match statfs h path with
  | None => (0, 0)
  | Some stat =>
    let totalBytes := wrapU64 (Blocks stat * wrapU64 (Bsize stat)) in
    let freeBytes := wrapU64 (Bavail stat * wrapU64 (Bsize stat)) in
    let usedBytes := wrapU64 (totalBytes - freeBytes) in
    let gb := float64.ofZ (1024 * 1024 * 1024) in
    let total :=
      float64.toInt intOfOther (float64.div (float64.ofZ totalBytes) gb) in
    let used :=
      float64.toInt intOfOther (float64.div (float64.ofZ usedBytes) gb) in
    (total, used)
  end.

(** [getSystemInfo] collects the whole record. *)
Definition getSystemInfo : go SystemInfo :=
  let os := getOS in
  let kernel := runCmd "uname" ["-r"] in
  let host := getEnvOrDefault "HOSTNAME" "N/A" in
  let user := getEnvOrDefault "USER" "N/A" in
  let shell := getEnvOrDefault "SHELL" "N/A" in
  let term := getEnvOrDefault "TERM" "N/A" in
  cpu <- getCPU ;;
  uptime <- getUptime ;;
  mem <- getMemory ;;
  let disk := getDisk "/" in
  Ret {| OS := os; Kernel := kernel; Arch := GOARCH;
         Host := host; User := user; Shell := shell; Term := term;
         CPU := cpu; Uptime := uptime;
         MemUsed := snd mem; MemTotal := fst mem;
         DiskUsed := snd disk; DiskTotal := fst disk |}.

(** *** The presenter *)

(** The map [c] of ANSI colours; a key that is absent reads as the empty
    string. *)
Definition c_map : list (string * string) :=
  [ ("reset", String ESC "[0m");
    ("bold", String ESC "[1m");
    ("cyan", String ESC "[36m");
    ("magenta", String ESC "[35m");
    ("yellow", String ESC "[33m");
    ("green", String ESC "[32m") ].

Fixpoint lookup (m : list (string * string)) (key : string) : string :=
  match m with
  | [] => EmptyString
  | (k, v) :: t => if String.eqb k key then v else lookup t key
  end.

Definition c (key : string) : string := lookup c_map key.

Definition logo : list string :=
  [ c "cyan" ++ "     ( (  " ++ c "reset";
    c "cyan" ++ "      ) ) " ++ c "reset";
    c "yellow" ++ "  ........ " ++ c "reset";
    c "yellow" ++ "  |      |]" ++ c "reset";
    c "yellow" ++ "  |      | " ++ c "reset";
    c "yellow" ++ "   ======  " ++ c "reset" ].

(** The percentage of [used] in [total] as the presenter derives it. *)
Definition percent (used total : Z) : spec_float :=
  if total >? 0 then
    float64.mul (float64.div (float64.ofZ used) (float64.ofZ total))
      (float64.ofZ 100)
  else float64.zero.

Definition data (info : SystemInfo) : list string :=
  let memPercent := percent (MemUsed info) (MemTotal info) in
  let diskPercent := percent (DiskUsed info) (DiskTotal info) in
  [ c "bold" ++ User info ++ "@" ++ Host info ++ c "reset";
    c "cyan" ++ "cafetch" ++ c "reset" ++ " (Go " ++ GoVersion ++ ")";
    "";
    c "yellow" ++ "OS:     " ++ c "reset" ++ OS info;
    c "yellow" ++ "Kernel: " ++ c "reset" ++ Kernel info;
    c "yellow" ++ "Arch:   " ++ c "reset" ++ Arch info;
    c "yellow" ++ "Uptime: " ++ c "reset" ++ Uptime info;
    "";
    c "green" ++ "CPU:  " ++ c "reset" ++ CPU info;
    c "green" ++ "Mem:  " ++ c "reset" ++ fmt.d (MemUsed info) ++ "MB / "
      ++ fmt.d (MemTotal info) ++ "MB (" ++ fmt.f1 memPercent ++ "%)";
    c "green" ++ "Disk: " ++ c "reset" ++ fmt.d (DiskUsed info) ++ "GB / "
      ++ fmt.d (DiskTotal info) ++ "GB (" ++ fmt.f1 diskPercent ++ "%)";
    "";
    c "magenta" ++ "Shell: " ++ c "reset" ++ Shell info;
    c "magenta" ++ "Term:  " ++ c "reset" ++ Term info;
    c "magenta" ++ "Time:  " ++ c "reset" ++ now h ].

(** One pass of the printing loop at index [i]: the string the call of
    [fmt.Printf] writes. *)
Definition printLine (logo data : list string) (i : nat) : go string :=
  logoLine <- (if (i <? List.length logo)%nat then index logo i
               else Ret EmptyString) ;;
  dataLine <- (if (i <? List.length data)%nat then index data i
               else Ret EmptyString) ;;
  Ret ("  " ++ fmt.padRight 20 logoLine ++ "  " ++ dataLine
         ++ String NL EmptyString).

(** The loop [for i := ...; i < maxLines; i++] with [todo] passes left. *)
Fixpoint printLoop (logo data : list string) (i todo : nat)
  : go (list string) :=
  match todo with
  | O => Ret []
  | S k =>
    out <- printLine logo data i ;;
    rest <- printLoop logo data (S i) k ;;
    Ret (out :: rest)
  end.

(** [printInfo]: what goes to the standard output, one string for each
    call of [fmt.Printf]. *)
Definition printInfo (info : SystemInfo) : go (list string) :=
  let maxLines := List.length logo in
  let maxLines :=
    if (maxLines <? List.length (data info))%nat
    then List.length (data info) else maxLines in
  printLoop logo (data info) 0 maxLines.

Definition main : go (list string) :=
  info <- getSystemInfo ;;
  printInfo info.

End Program.


(** ** Vocabulary of the statements *)

(** The sentinel of a source that is not available. *)
Definition NA : string := "N/A".

(** [entry key lines v ok]: among [lines] exactly one begins with [key];
    it has a second field, and [strconv.Atoi] reads that field as [v],
    with success when [ok] holds. *)
Definition entry (key : string) (lines : list string) (v : Z) (ok : bool)
  : Prop :=
  exists (pre : list string) (line : string) (post : list string)
         (f0 f1 : string) (more : list string),
    lines = (pre ++ line :: post)%list /\
    strings.HasPrefix line key = true /\
    strings.Fields line = f0 :: f1 :: more /\
    strconv.Atoi f1 = (v, ok) /\
    (forall l, In l pre \/ In l post -> strings.HasPrefix l key = false).

(** [absent key lines]: no line begins with [key]. *)
Definition absent (key : string) (lines : list string) : Prop :=
  forall l, In l lines -> strings.HasPrefix l key = false.

(** [hasColon line]: a colon occurs in [line]. *)
Definition hasColon (line : string) : bool := strings.mem ":" line.


(** A line of the memory description that gives a negative amount of
    available memory. *)
Definition negativeAvail (line : string) : bool :=
  strings.HasPrefix line "MemAvailable:" &&
  match strings.Fields line with
  | _ :: f1 :: _ => fst (strconv.Atoi f1) <? 0
  | _ => false
  end.

(** The value the loop of [getMemory] reads on a line, if the line has
    two fields. *)
Definition lineValue (line : string) : option Z :=
  match strings.Fields line with
  | _ :: f1 :: _ => Some (fst (strconv.Atoi f1))
  | _ => None
  end.

(** The integer [float64(n)] stands for, for [0 <= n]: [n] itself when
    53 bits hold it, else [n] rounded to its 53 leading bits, ties to
    even. *)
Definition float64Value (n : Z) : Z :=
  let k := Z.log2 n - 52 in
  if k <=? 0 then n else fmt.roundHalfEven n (2 ^ k) * 2 ^ k.

(** [viaEnv h key field]: [field] is the value of the variable [key], or
    the sentinel when the variable is not set or is empty. *)
Definition viaEnv (h : HostEnv) (key field : string) : Prop :=
  (env h key = None \/ env h key = Some EmptyString -> field = NA) /\
  (forall v, env h key = Some v -> v <> EmptyString -> field = v).

(** [osMeasured h name]: [name] comes from a [PRETTY_NAME=] line of the
    os-release file. *)
Definition osMeasured (h : HostEnv) (name : string) : Prop :=
  exists content value,
    file h "/etc/os-release" = Some content /\
    In ("PRETTY_NAME=" ++ value) (bufio.scanLines content) /\
    name = strings.Trim value (String DQUOTE EmptyString).

(** [cpuMeasured h model]: [model] comes from a [model name] line of the
    cpuinfo file. *)
Definition cpuMeasured (h : HostEnv) (model : string) : Prop :=
  exists content label value,
    file h "/proc/cpuinfo" = Some content /\
    In (label ++ ":" ++ value) (bufio.scanLines content) /\
    strings.HasPrefix (label ++ ":" ++ value) "model name" = true /\
    hasColon label = false /\
    model = strings.TrimSpace value.

(** [uptimeMeasured h text]: [text] comes from the first token of the
    uptime file. *)
Definition uptimeMeasured {P : Platform} (h : HostEnv) (text : string) : Prop :=
  exists data tok rest seconds,
    file h "/proc/uptime" = Some data /\
    strings.Fields data = tok :: rest /\
    ParseFloat tok = Some seconds /\
    text = formatUptime (float64.toInt intOfOther seconds).

(** [memoryMeasured h total used]: the pair comes from the variables the
    scan of the memory file ends with. *)
Definition memoryMeasured (h : HostEnv) (total used : Z) : Prop :=
  exists content memTotal memAvail,
    file h "/proc/meminfo" = Some content /\
    getMemory_scan (bufio.scanLines content) 0 0 = Ret (memTotal, memAvail) /\
    total = Z.quot memTotal 1024 /\
    used = total - Z.quot memAvail 1024.

(** The white-space bytes of ASCII: tab, line feed, vertical tab, form
    feed, carriage return and space. *)
Definition asciiSpace (c : ascii) : bool :=
  (byteval c =? 9) || (byteval c =? 10) || (byteval c =? 11) ||
  (byteval c =? 12) || (byteval c =? 13) || (byteval c =? 32).

(** [highBytes bs]: every byte of [bs] is outside ASCII. *)
Fixpoint highBytes (bs : string) : Prop :=
  match bs with
  | EmptyString => True
  | String c t => 128 <= byteval c /\ highBytes t
  end.

(** [unquoted s]: [s] neither begins nor ends with a double quote. *)
Definition unquoted (s : string) : Prop :=
  (forall c t, s = String c t -> c <> DQUOTE) /\
  (forall body c, s = body ++ String c EmptyString -> c <> DQUOTE).

(** [runeBytes x]: the bytes of the rune [x] are one byte that is the
    rune itself, or bytes outside ASCII only, at least one. *)
Definition runeBytes (x : Z * string) : Prop :=
  (exists c, snd x = String c EmptyString /\ fst x = byteval c) \/
  (snd x <> EmptyString /\ highBytes (snd x)).

(** [trimmed s]: [s] neither begins nor ends with a white-space byte of
    ASCII. *)
Definition trimmed (s : string) : Prop :=
  (forall c t, s = String c t -> asciiSpace c = false) /\
  (forall body c, s = body ++ String c EmptyString -> asciiSpace c = false).

(** What one pass of the printing loop writes for a pair of lines. *)
Definition joined (logoLine dataLine : string) : string :=
  "  " ++ fmt.padRight 20 logoLine ++ "  " ++ dataLine ++ String NL EmptyString.

(** ** Hosts and a platform for the examples *)

Definition LF : string := String NL EmptyString.

(** A host on which no source is available. *)
Definition bareHost : HostEnv :=
  {| file := fun _ => None;
     env := fun _ => None;
     command := fun _ _ => None;
     statfs := fun _ => None;
     now := "2024-01-01 00:00:00" |}.

(** [bareHost] with one readable file. *)
Definition hostWithFile (path content : string) : HostEnv :=
  {| file := fun p => if String.eqb p path then Some content else None;
     env := fun _ => None;
     command := fun _ _ => None;
     statfs := fun _ => None;
     now := "2024-01-01 00:00:00" |}.

(** [bareHost] with filesystem statistics for every path. *)
Definition hostWithStatfs (st : Statfs_t) : HostEnv :=
  {| file := fun _ => None;
     env := fun _ => None;
     command := fun _ _ => None;
     statfs := fun _ => Some st;
     now := "2024-01-01 00:00:00" |}.

(** A reader of unsigned decimal integers: on such a token
    [strconv.ParseFloat] returns the nearest [float64]; this reader knows
    no other token. *)
Definition parseDecimalInteger (s : string) : option spec_float :=
  match strconv.ParseUint s with
  | strconv.UOk n => Some (float64.ofZ n)
  | _ => None
  end.

(** A 64-bit Linux build for the examples, with the reader above in the
    place of [strconv.ParseFloat].  On amd64 a conversion that does not
    fit gives the least [int]. *)
Definition linux_amd64 : Platform :=
  {| GOOS := "linux";
     GOARCH := "amd64";
     GoVersion := "go1.22.0";
     ParseFloat := parseDecimalInteger;
     intOfOther := fun _ => - 2 ^ 63 |}.

Definition meminfo_8000000_2000000 : string :=
  "MemTotal:        8000000 kB" ++ LF ++
  "MemFree:          500000 kB" ++ LF ++
  "MemAvailable:    2000000 kB" ++ LF ++
  "Buffers:          100000 kB" ++ LF.

(** A memory description whose available amount is negative. *)
Definition meminfo_negative : string :=
  "MemTotal: 4096 kB" ++ LF ++ "MemAvailable: -2048 kB" ++ LF.



Definition os_release_test : string :=
  "NAME=Test" ++ LF ++
  "PRETTY_NAME=" ++ String DQUOTE ("Test OS 1.0" ++ String DQUOTE LF) ++
  "ID=test" ++ LF.

Definition TAB : string := String (ascii_of_nat 9) EmptyString.

Definition cpuinfo_test : string :=
  "processor" ++ TAB ++ ": 0" ++ LF ++
  "model name" ++ TAB ++ ": Test CPU @ 3.00GHz" ++ LF ++
  "model name" ++ TAB ++ ": Other" ++ LF.

(** Statistics of a filesystem of 100 GB with 40 GB available, in blocks
    of 4096 bytes. *)
Definition statfs_100_40 : Statfs_t :=
  {| Blocks := 100 * 2 ^ 18; Bsize := 4096; Bavail := 40 * 2 ^ 18 |}.

(** Statistics whose byte count leaves the range of [uint64]. *)
Definition statfs_wrap : Statfs_t :=
  {| Blocks := 2 ^ 52; Bsize := 4096; Bavail := 0 |}.

(** Statistics whose byte count takes more than 53 bits and lies just
    below a multiple of [2 ^ 30]. *)
Definition statfs_round : Statfs_t :=
  {| Blocks := 2 ^ 53 + 2 ^ 30 - 1; Bsize := 1; Bavail := 0 |}.

(** Statistics that announce more available blocks than blocks. *)
Definition statfs_avail_above : Statfs_t :=
  {| Blocks := 0; Bsize := 4096; Bavail := 1 |}.

(** The record the collection builds on [bareHost] for the platform
    [linux_amd64]. *)
Definition bareInfo : SystemInfo :=
  {| OS := "linux"; Kernel := "N/A"; Arch := "amd64";
     Host := "N/A"; User := "N/A"; Shell := "N/A"; Term := "N/A";
     CPU := "N/A"; Uptime := "N/A";
     MemUsed := 0; MemTotal := 0; DiskUsed := 0; DiskTotal := 0 |}.

(** The same record with the CPU model of [cpuinfo_test]. *)
Definition bareInfoWithCPU : SystemInfo :=
  {| OS := "linux"; Kernel := "N/A"; Arch := "amd64";
     Host := "N/A"; User := "N/A"; Shell := "N/A"; Term := "N/A";
     CPU := "Test CPU @ 3.00GHz"; Uptime := "N/A";
     MemUsed := 0; MemTotal := 0; DiskUsed := 0; DiskTotal := 0 |}.

(** A host on which every source is available. *)
Definition sampleHost : HostEnv :=
  {| file := fun p =>
       if String.eqb p "/etc/os-release" then Some os_release_test
       else if String.eqb p "/proc/cpuinfo" then Some cpuinfo_test
       else if String.eqb p "/proc/uptime" then Some ("3661 7000" ++ LF)
       else if String.eqb p "/proc/meminfo" then Some meminfo_8000000_2000000
       else None;
     env := fun k =>
       if String.eqb k "HOSTNAME" then Some "box"
       else if String.eqb k "USER" then Some "ana"
       else if String.eqb k "SHELL" then Some "/bin/sh"
       else if String.eqb k "TERM" then Some EmptyString
       else None;
     command := fun name args =>
       if String.eqb name "uname" then Some ("6.1.0" ++ LF) else None;
     statfs := fun _ => Some statfs_100_40;
     now := "2024-01-01 00:00:00" |}.

(** The record the collection builds on [sampleHost]. *)
Definition sampleInfo : SystemInfo :=
  {| OS := "Test OS 1.0"; Kernel := "6.1.0"; Arch := "amd64";
     Host := "box"; User := "ana"; Shell := "/bin/sh"; Term := "N/A";
     CPU := "Test CPU @ 3.00GHz"; Uptime := "1h 1m";
     MemUsed := 5859; MemTotal := 7812; DiskUsed := 60; DiskTotal := 100 |}.


(** * Properties *)

(** ** The embedding on examples *)

Example scanLines_example :
  bufio.scanLines ("a" ++ LF ++ "b" ++ String CR LF ++ LF ++ "c") =
  ["a"; "b"; ""; "c"].
Proof. reflexivity. Qed.

Example Fields_example :
  strings.Fields "MemTotal:        8000000 kB" = ["MemTotal:"; "8000000"; "kB"].
Proof. reflexivity. Qed.

Example TrimSpace_example :
  strings.TrimSpace (" 6.1.0 " ++ TAB ++ LF) = "6.1.0".
Proof. reflexivity. Qed.

Example SplitN_example :
  strings.SplitN "model name : a:b" ":" 2 = ["model name "; " a:b"] /\
  strings.SplitN "model name" ":" 2 = ["model name"].
Proof. split; reflexivity. Qed.

Example Atoi_example :
  strconv.Atoi "8000000" = (8000000, true) /\
  strconv.Atoi "-2048" = (-2048, true) /\
  strconv.Atoi "kB" = (0, false) /\
  strconv.Atoi "99999999999999999999" = (2 ^ 63 - 1, false).
Proof. repeat split; reflexivity. Qed.

Example f1_example :
  fmt.f1 (float64.div (float64.ofZ 1) (float64.ofZ 4)) = "0.2" /\
  fmt.f1 (float64.div (float64.ofZ 3) (float64.ofZ 4)) = "0.8" /\
  fmt.f1 (float64.div (float64.ofZ 1999) (float64.ofZ 20)) = "100.0".
Proof. repeat split; reflexivity. Qed.

Example getSystemInfo_example :
  getSystemInfo (P := linux_amd64) sampleHost = Ret sampleInfo.
Proof. reflexivity. Qed.

Example printInfo_example :
  exists out,
    main (P := linux_amd64) sampleHost = Ret out /\
    nth 9 out EmptyString =
      "                        " ++ String ESC "[32mMem:  " ++ String ESC "[0m"
        ++ "5859MB / 7812MB (75.0%)" ++ LF.
Proof. eexists. split; reflexivity. Qed.

(** ** Slices and the monad *)

Lemma index_in_range {A : Type} (xs : list A) (i : nat) (dflt : A) :
  (i < List.length xs)%nat -> index xs i = Ret (nth i xs dflt).
Proof.
  intros Hi. unfold index.
  destruct (nth_error xs i) as [x|] eqn:E.
  - f_equal. symmetry. now apply nth_error_nth.
  - apply nth_error_None in E. lia.
Qed.

Lemma bind_Ret {A B : Type} (a : A) (k : A -> go B) : bind (Ret a) k = k a.
Proof. reflexivity. Qed.

(** ** Machine integers and [strconv.Atoi] *)

Lemma parseUintLoop_bounds (s : string) :
  forall n m, 0 <= n <= strconv.maxUint64 ->
    strconv.parseUintLoop n s = strconv.UOk m -> 0 <= m <= strconv.maxUint64.
Proof.
  induction s as [|ch t IH]; intros n m Hn; cbn [strconv.parseUintLoop].
  - intros E. inversion E. subst. exact Hn.
  - destruct (strconv.isDigit ch) eqn:Hd; [|discriminate].
    destruct (n >=? strconv.maxUint64 / 10 + 1); [discriminate|].
    destruct (n * 10 + (byteval ch - 48) >? strconv.maxUint64) eqn:Hov;
      [discriminate|].
    apply IH. unfold strconv.isDigit in Hd.
    apply andb_prop in Hd. destruct Hd as [H1 _].
    apply Z.leb_le in H1.
    rewrite Z.gtb_ltb in Hov. apply Z.ltb_ge in Hov. lia.
Qed.

Lemma ParseUint_bounds (s : string) (m : Z) :
  strconv.ParseUint s = strconv.UOk m -> 0 <= m <= strconv.maxUint64.
Proof.
  unfold strconv.ParseUint. destruct s; [discriminate|].
  apply parseUintLoop_bounds. unfold strconv.maxUint64. lia.
Qed.

Lemma Atoi_range (s : string) :
  - 2 ^ 63 <= fst (strconv.Atoi s) < 2 ^ 63.
Proof.
  unfold strconv.Atoi. destruct s as [|ch t]; [cbn [fst]; lia|].
  destruct (strconv.ParseUint _) as [un| |] eqn:E.
  - apply ParseUint_bounds in E. unfold strconv.maxUint64 in E.
    destruct (Ascii.eqb ch "-"); cbn [negb andb].
    + destruct (un >? 2 ^ 63) eqn:G; cbn [fst]; [lia|].
      rewrite Z.gtb_ltb in G. apply Z.ltb_ge in G. lia.
    + destruct (un >=? 2 ^ 63) eqn:G; cbn [fst]; [lia|].
      rewrite Z.geb_leb in G. apply Z.leb_gt in G. lia.
  - cbn [fst]. lia.
  - destruct (Ascii.eqb ch "-"); cbn [fst]; lia.
Qed.

Lemma wrap64_id (z : Z) : - 2 ^ 63 <= z < 2 ^ 63 -> wrap64 z = z.
Proof.
  intros Hz. unfold wrap64. rewrite Z.mod_small by lia. lia.
Qed.

Lemma quot_1024_range (z : Z) :
  - 2 ^ 63 <= z < 2 ^ 63 -> - 2 ^ 53 <= Z.quot z 1024 <= 2 ^ 53.
Proof.
  intros Hz. destruct (Z.le_gt_cases 0 z) as [Hp|Hn].
  - rewrite Z.quot_div_nonneg by lia.
    split; [pose proof (Z.div_pos z 1024); lia|].
    apply Z.lt_le_incl, Z.div_lt_upper_bound; lia.
  - replace z with (- - z) by lia. rewrite Z.quot_opp_l by lia.
    rewrite Z.quot_div_nonneg by lia.
    assert (0 <= - z / 1024) by (apply Z.div_pos; lia).
    assert (- z / 1024 <= 2 ^ 53).
    { apply Z.div_le_upper_bound; lia. }
    lia.
Qed.

(** ** Package [strings] *)

Lemma HasPrefix_append (p v : string) : strings.HasPrefix (p ++ v) p = true.
Proof.
  unfold strings.HasPrefix.
  induction p as [|ch p IH]; cbn; [now destruct v|].
  destruct (ascii_dec ch ch); [exact IH|congruence].
Qed.

Lemma HasPrefix_split (p s : string) :
  strings.HasPrefix s p = true -> s = p ++ strings.drop (String.length p) s.
Proof.
  unfold strings.HasPrefix. revert s.
  induction p as [|ch p IH]; intros s Hp.
  - reflexivity.
  - destruct s as [|a s]; [discriminate|].
    cbn [String.prefix] in Hp.
    destruct (ascii_dec ch a) as [->|]; [|discriminate].
    cbn [String.length strings.drop append]. f_equal. now apply IH.
Qed.

Lemma TrimPrefix_append (p v : string) :
  strings.TrimPrefix (p ++ v) p = v.
Proof.
  unfold strings.TrimPrefix, strings.HasPrefix.
  assert (Hp : String.prefix p (p ++ v) = true).
  { induction p as [|ch p IH]; cbn; [now destruct v|].
    destruct (ascii_dec ch ch); [exact IH|congruence]. }
  rewrite Hp. induction p as [|ch p IH]; cbn.
  - reflexivity.
  - apply IH. cbn in Hp. now destruct (ascii_dec ch ch).
Qed.

Lemma trimRightBytes_head (set : string) (ch : ascii) (t : string) :
  strings.mem ch set = false ->
  exists t', strings.trimRightBytes set (String ch t) = String ch t'.
Proof.
  intros Hm. cbn [strings.trimRightBytes].
  destruct (strings.trimRightBytes set t); rewrite ?Hm; eauto.
Qed.

Lemma trimLeftBytes_head (set s : string) (ch : ascii) (t : string) :
  strings.trimLeftBytes set s = String ch t -> strings.mem ch set = false.
Proof.
  induction s as [|a s IH]; cbn [strings.trimLeftBytes]; [discriminate|].
  destruct (strings.mem a set) eqn:Ha; [exact IH|].
  intros E. inversion E. now subst.
Qed.

Lemma trimRightBytes_last (set s body : string) (ch : ascii) :
  strings.trimRightBytes set s = body ++ String ch EmptyString ->
  strings.mem ch set = false.
Proof.
  revert body. induction s as [|a s IH]; intros body.
  - cbn [strings.trimRightBytes]. destruct body; discriminate.
  - cbn [strings.trimRightBytes].
    destruct (strings.trimRightBytes set s) as [|b t'] eqn:Et.
    + destruct (strings.mem a set) eqn:Ha.
      * destruct body; discriminate.
      * destruct body as [|x body]; cbn [append]; intros E.
        -- inversion E. now subst.
        -- inversion E. destruct body; discriminate.
    + destruct body as [|x body]; cbn [append]; intros E.
      * discriminate.
      * inversion E. subst. now apply (IH body).
Qed.

Lemma Trim_head (s set : string) (ch : ascii) (t : string) :
  strings.Trim s set = String ch t -> strings.mem ch set = false.
Proof.
  unfold strings.Trim.
  destruct (strings.trimLeftBytes set s) as [|a u] eqn:El; [discriminate|].
  pose proof (trimLeftBytes_head _ _ _ _ El) as Ha.
  destruct (trimRightBytes_head set a u Ha) as [t' ->].
  intros E. inversion E. now subst.
Qed.

Lemma Trim_last (s set body : string) (ch : ascii) :
  strings.Trim s set = body ++ String ch EmptyString ->
  strings.mem ch set = false.
Proof. unfold strings.Trim. apply trimRightBytes_last. Qed.



Lemma cut_colon_some (line : string) :
  hasColon line = true -> exists a b, strings.cut ":" line = Some (a, b).
Proof.
  unfold hasColon. induction line as [|ch line IH]; intros Hc.
  - discriminate.
  - cbn [strings.cut]. unfold strings.HasPrefix. cbn [String.prefix].
    destruct (ascii_dec ":" ch) as [E|E].
    + destruct line; do 2 eexists; reflexivity.
    + cbn [strings.mem] in Hc.
      destruct (Ascii.eqb ":" ch) eqn:Eb.
      * apply Ascii.eqb_eq in Eb. contradiction.
      * cbn [orb] in Hc. destruct (IH Hc) as (a & b & ->). eauto.
Qed.

Lemma cut_colon_spec (line a b : string) :
  strings.cut ":" line = Some (a, b) ->
  line = a ++ ":" ++ b /\ hasColon a = false.
Proof.
  revert a. induction line as [|ch line IH]; intros a.
  - cbn. discriminate.
  - cbn [strings.cut]. unfold strings.HasPrefix. cbn [String.prefix].
    destruct (ascii_dec ":" ch) as [<-|Hne].
    + replace (String.prefix "" line) with true by (now destruct line).
      intros E. inversion E. now split.
    + destruct (strings.cut ":" line) as [[a' b']|]; [|discriminate].
      intros E. inversion E. subst.
      destruct (IH a' eq_refl) as (-> & Hc).
      split; [reflexivity|].
      unfold hasColon in *. cbn [strings.mem]. rewrite Hc.
      destruct (Ascii.eqb_spec ":" ch); [contradiction|reflexivity].
Qed.

(** [SplitN line sep 2] has two pieces exactly when [sep] occurs. *)
Lemma SplitN_2 (line sep : string) :
  strings.SplitN line sep 2 =
  match strings.cut sep line with
  | Some (a, b) => [a; b]
  | None => [line]
  end.
Proof.
  cbn [strings.SplitN]. now destruct (strings.cut sep line) as [[a b]|].
Qed.

(** ** Package [bufio] *)

(** When every line fits the buffer of the scanner, the scanner delivers
    all of them. *)
Lemma scanLines_all_fit (s : string) :
  (forall l, In l (bufio.rawLines s) -> bufio.fits l = true) ->
  bufio.scanLines s = map bufio.dropCR (bufio.rawLines s).
Proof.
  unfold bufio.scanLines. intros Hfit. f_equal.
  induction (bufio.rawLines s) as [|l ls IH]; cbn [bufio.takeWhile].
  - reflexivity.
  - rewrite (Hfit l) by now left. f_equal. apply IH.
    intros x Hx. apply Hfit. now right.
Qed.

(** ** The scanner loop of [getOS] *)

Lemma getOS_scan_first (pre post : list string) (line : string) :
  absent "PRETTY_NAME=" pre ->
  strings.HasPrefix line "PRETTY_NAME=" = true ->
  getOS_scan (pre ++ line :: post) =
  Some (strings.Trim (strings.TrimPrefix line "PRETTY_NAME=")
          (String DQUOTE EmptyString)).
Proof.
  intros Hab Hp. induction pre as [|l pre IH]; cbn [app getOS_scan].
  - now rewrite Hp.
  - rewrite (Hab l) by now left. apply IH.
    intros x Hx. apply Hab. now right.
Qed.

Lemma getOS_scan_none (lines : list string) :
  absent "PRETTY_NAME=" lines -> getOS_scan lines = None.
Proof.
  intros Hab. induction lines as [|l lines IH]; cbn [getOS_scan].
  - reflexivity.
  - rewrite (Hab l) by now left. apply IH.
    intros x Hx. apply Hab. now right.
Qed.

Lemma getOS_scan_some (lines : list string) (name : string) :
  getOS_scan lines = Some name ->
  exists value,
    In ("PRETTY_NAME=" ++ value) lines /\
    name = strings.Trim value (String DQUOTE EmptyString).
Proof.
  induction lines as [|l lines IH]; cbn [getOS_scan]; [discriminate|].
  destruct (strings.HasPrefix l "PRETTY_NAME=") eqn:Hp.
  - intros E. inversion E.
    exists (strings.drop (String.length "PRETTY_NAME=") l).
    rewrite <- (HasPrefix_split _ _ Hp). split; [now left|].
    unfold strings.TrimPrefix. now rewrite Hp.
  - intros E. destruct (IH E) as (value & Hin & Hn).
    exists value. split; [now right|assumption].
Qed.

(** ** The scanner loop of [getCPU] *)

Lemma getCPU_scan_step (line : string) (rest : list string) :
  getCPU_scan (line :: rest) =
  if strings.HasPrefix line "model name" then
    match strings.cut ":" line with
    | Some (_, after) => Ret (Some (strings.TrimSpace after))
    | None => getCPU_scan rest
    end
  else getCPU_scan rest.
Proof.
  cbn [getCPU_scan]. rewrite SplitN_2.
  destruct (strings.HasPrefix line "model name"); [|reflexivity].
  now destruct (strings.cut ":" line) as [[a b]|].
Qed.




Lemma getCPU_scan_some (lines : list string) (model : string) :
  getCPU_scan lines = Ret (Some model) ->
  exists label value,
    In (label ++ ":" ++ value) lines /\
    strings.HasPrefix (label ++ ":" ++ value) "model name" = true /\
    hasColon label = false /\
    model = strings.TrimSpace value.
Proof.
  induction lines as [|l lines IH]; [discriminate|].
  rewrite getCPU_scan_step.
  assert (Hrest : getCPU_scan lines = Ret (Some model) ->
                  exists label value,
                    In (label ++ ":" ++ value) (l :: lines) /\
                    strings.HasPrefix (label ++ ":" ++ value) "model name" = true /\
                    hasColon label = false /\
                    model = strings.TrimSpace value).
  { intros E. destruct (IH E) as (label & value & Hin & Hrest).
    exists label, value. split; [now right|assumption]. }
  destruct (strings.HasPrefix l "model name") eqn:Hp; [|exact Hrest].
  destruct (strings.cut ":" l) as [[a b]|] eqn:Hc; [|exact Hrest].
  intros E. inversion E.
  destruct (cut_colon_spec _ _ _ Hc) as (Hl & Hno).
  exists a, b. rewrite <- Hl. repeat split; try assumption. now left.
Qed.

(** The loop of [getCPU] never panics. *)
Lemma getCPU_scan_returns (lines : list string) :
  exists r, getCPU_scan lines = Ret r.
Proof.
  induction lines as [|l lines [r IH]].
  - now exists None.
  - rewrite getCPU_scan_step.
    destruct (strings.HasPrefix l "model name"); [|now exists r].
    destruct (strings.cut ":" l) as [[a b]|]; [|now exists r].
    now eexists.
Qed.

(** ** The scanner loop of [getMemory] *)

Lemma getMemory_scan_step (line : string) (rest : list string) (mt ma : Z) :
  getMemory_scan (line :: rest) mt ma =
  match lineValue line with
  | None => getMemory_scan rest mt ma
  | Some val =>
    let mt' := if strings.HasPrefix line "MemTotal:" then val else mt in
    let ma' := if strings.HasPrefix line "MemAvailable:" then val else ma in
    if (mt' >? 0) && (ma' >? 0) then Ret (mt', ma')
    else getMemory_scan rest mt' ma'
  end.
Proof.
  unfold lineValue. simpl getMemory_scan.
  destruct (strings.Fields line) as [|f0 [|f1 more]]; reflexivity.
Qed.

Lemma lineValue_range (line : string) (val : Z) :
  lineValue line = Some val -> - 2 ^ 63 <= val < 2 ^ 63.
Proof.
  unfold lineValue.
  destruct (strings.Fields line) as [|f0 [|f1 more]]; try discriminate.
  intros E. inversion E. apply Atoi_range.
Qed.

(** The loop always ends with a pair, and the pair stays in range. *)
Lemma getMemory_scan_returns (lines : list string) :
  forall mt ma,
    - 2 ^ 63 <= mt < 2 ^ 63 -> - 2 ^ 63 <= ma < 2 ^ 63 ->
    exists mt' ma',
      getMemory_scan lines mt ma = Ret (mt', ma') /\
      - 2 ^ 63 <= mt' < 2 ^ 63 /\ - 2 ^ 63 <= ma' < 2 ^ 63.
Proof.
  induction lines as [|line rest IH]; intros mt ma Ht Ha.
  - exists mt, ma. simpl. auto.
  - rewrite getMemory_scan_step.
    destruct (lineValue line) as [val|] eqn:Ev; [|now apply IH].
    apply lineValue_range in Ev. cbv zeta.
    set (mt' := if strings.HasPrefix line "MemTotal:" then val else mt).
    set (ma' := if strings.HasPrefix line "MemAvailable:" then val else ma).
    assert (- 2 ^ 63 <= mt' < 2 ^ 63)
      by (subst mt'; destruct (strings.HasPrefix line "MemTotal:"); assumption).
    assert (- 2 ^ 63 <= ma' < 2 ^ 63)
      by (subst ma'; destruct (strings.HasPrefix line "MemAvailable:"); assumption).
    destruct ((mt' >? 0) && (ma' >? 0)).
    + exists mt', ma'. auto.
    + now apply IH.
Qed.

Lemma getMemory_scan_keeps_total (lines : list string) :
  forall mt ma mt' ma',
    absent "MemTotal:" lines ->
    getMemory_scan lines mt ma = Ret (mt', ma') -> mt' = mt.
Proof.
  induction lines as [|line rest IH]; intros mt ma mt' ma' Hab.
  - simpl. intros E. now inversion E.
  - rewrite getMemory_scan_step.
    assert (Hl : strings.HasPrefix line "MemTotal:" = false)
      by (apply Hab; now left).
    assert (Hr : absent "MemTotal:" rest)
      by (intros l Hin; apply Hab; now right).
    rewrite Hl. destruct (lineValue line) as [val|]; cbv zeta.
    + destruct (_ && _).
      * intros E. now inversion E.
      * now apply IH.
    + now apply IH.
Qed.

Lemma getMemory_scan_keeps_avail (lines : list string) :
  forall mt ma mt' ma',
    absent "MemAvailable:" lines ->
    getMemory_scan lines mt ma = Ret (mt', ma') -> ma' = ma.
Proof.
  induction lines as [|line rest IH]; intros mt ma mt' ma' Hab.
  - simpl. intros E. now inversion E.
  - rewrite getMemory_scan_step.
    assert (Hl : strings.HasPrefix line "MemAvailable:" = false)
      by (apply Hab; now left).
    assert (Hr : absent "MemAvailable:" rest)
      by (intros l Hin; apply Hab; now right).
    rewrite Hl. destruct (lineValue line) as [val|]; cbv zeta.
    + destruct (_ && _).
      * intros E. now inversion E.
      * now apply IH.
    + now apply IH.
Qed.

Lemma entry_lineValue (line f0 f1 : string) (more : list string) (v : Z) (ok : bool) :
  strings.Fields line = f0 :: f1 :: more -> strconv.Atoi f1 = (v, ok) ->
  lineValue line = Some v.
Proof.
  intros HF HA. unfold lineValue. now rewrite HF, HA.
Qed.

Lemma getMemory_scan_finds_total (lines : list string) (T : Z) (ok : bool) :
  entry "MemTotal:" lines T ok ->
  forall ma mt' ma',
    getMemory_scan lines 0 ma = Ret (mt', ma') -> mt' = T.
Proof.
  intros (pre & line & post & f0 & f1 & more & -> & Hp & HF & HA & Hu).
  induction pre as [|l pre IH]; intros ma mt' ma'.
  - cbn [app]. rewrite getMemory_scan_step.
    rewrite (entry_lineValue _ _ _ _ _ _ HF HA), Hp. cbv zeta.
    destruct (_ && _).
    + intros E. now inversion E.
    + apply getMemory_scan_keeps_total. intros x Hx. apply Hu. now right.
  - cbn [app]. rewrite getMemory_scan_step.
    assert (Hl : strings.HasPrefix l "MemTotal:" = false)
      by (apply Hu; left; now left).
    rewrite Hl.
    assert (Hu' : forall x, In x pre \/ In x post ->
                            strings.HasPrefix x "MemTotal:" = false).
    { intros x [Hx|Hx]; apply Hu; [left; now right|now right]. }
    destruct (lineValue l) as [val|]; cbv zeta.
    + replace (0 >? 0) with false by reflexivity. cbn [andb].
      now apply IH.
    + now apply IH.
Qed.

Lemma getMemory_scan_finds_avail (lines : list string) (A : Z) (ok : bool) :
  entry "MemAvailable:" lines A ok ->
  forall mt mt' ma',
    getMemory_scan lines mt 0 = Ret (mt', ma') -> ma' = A.
Proof.
  intros (pre & line & post & f0 & f1 & more & -> & Hp & HF & HA & Hu).
  induction pre as [|l pre IH]; intros mt mt' ma'.
  - cbn [app]. rewrite getMemory_scan_step.
    rewrite (entry_lineValue _ _ _ _ _ _ HF HA), Hp. cbv zeta.
    destruct (_ && _).
    + intros E. now inversion E.
    + apply getMemory_scan_keeps_avail. intros x Hx. apply Hu. now right.
  - cbn [app]. rewrite getMemory_scan_step.
    assert (Hl : strings.HasPrefix l "MemAvailable:" = false)
      by (apply Hu; left; now left).
    rewrite Hl.
    assert (Hu' : forall x, In x pre \/ In x post ->
                            strings.HasPrefix x "MemAvailable:" = false).
    { intros x [Hx|Hx]; apply Hu; [left; now right|now right]. }
    destruct (lineValue l) as [val|]; cbv zeta.
    + replace (0 >? 0) with false by reflexivity. rewrite andb_false_r.
      now apply IH.
    + now apply IH.
Qed.

Lemma getMemory_scan_avail_nonneg (lines : list string) :
  forall mt ma mt' ma',
    (forall l, In l lines -> negativeAvail l = false) ->
    0 <= ma ->
    getMemory_scan lines mt ma = Ret (mt', ma') -> 0 <= ma'.
Proof.
  induction lines as [|line rest IH]; intros mt ma mt' ma' Hneg Hma.
  - simpl. intros E. inversion E. now subst.
  - rewrite getMemory_scan_step.
    assert (Hl : negativeAvail line = false) by (apply Hneg; now left).
    assert (Hr : forall l, In l rest -> negativeAvail l = false)
      by (intros l Hin; apply Hneg; now right).
    unfold negativeAvail in Hl. unfold lineValue.
    destruct (strings.Fields line) as [|f0 [|f1 more]];
      try (now apply IH).
    cbv zeta.
    set (val := fst (strconv.Atoi f1)) in *.
    assert (Hv : 0 <= (if strings.HasPrefix line "MemAvailable:" then val else ma)).
    { destruct (strings.HasPrefix line "MemAvailable:"); [|assumption].
      cbn [andb] in Hl. apply Z.ltb_ge in Hl. exact Hl. }
    clear Hl.
    match goal with |- context [if ?b then Ret _ else _] => destruct b end.
    + intros E. inversion E. now subst.
    + now apply IH.
Qed.

(** The pair [getMemory] returns, from the variables the loop ends with. *)
Lemma getMemory_readable (h : HostEnv) (content : string) :
  file h "/proc/meminfo" = Some content ->
  exists mt ma,
    getMemory_scan (bufio.scanLines content) 0 0 = Ret (mt, ma) /\
    getMemory h = Ret (Z.quot mt 1024, Z.quot mt 1024 - Z.quot ma 1024).
Proof.
  intros Hf.
  destruct (getMemory_scan_returns (bufio.scanLines content) 0 0)
    as (mt & ma & E & Ht & Ha); [lia|lia|].
  exists mt, ma. split; [exact E|].
  unfold getMemory. rewrite Hf, E. cbn [bind].
  rewrite wrap64_id; [reflexivity|].
  pose proof (quot_1024_range mt Ht). pose proof (quot_1024_range ma Ha). lia.
Qed.

Lemma getMemory_unavailable (h : HostEnv) :
  file h "/proc/meminfo" = None -> getMemory h = Ret (0, 0).
Proof. intros Hf. unfold getMemory. now rewrite Hf. Qed.

(** The result of [getMemory] on a file with one line of each kind. *)
Lemma getMemory_of_entries (h : HostEnv) (content : string) (T A : Z)
  (okT okA : bool) :
  file h "/proc/meminfo" = Some content ->
  entry "MemTotal:" (bufio.scanLines content) T okT ->
  entry "MemAvailable:" (bufio.scanLines content) A okA ->
  getMemory h = Ret (Z.quot T 1024, Z.quot T 1024 - Z.quot A 1024).
Proof.
  intros Hf HT HA.
  destruct (getMemory_readable h content Hf) as (mt & ma & Es & ->).
  rewrite (getMemory_scan_finds_total _ T okT HT _ _ _ Es).
  rewrite (getMemory_scan_finds_avail _ A okA HA _ _ _ Es).
  reflexivity.
Qed.

(** ** Exact conversions of [float64] *)

Lemma digits2_pos_log2 (p : positive) :
  Zpos (digits2_pos p) = Z.log2 (Zpos p) + 1.
Proof.
  induction p as [p IH|p IH|]; cbn [digits2_pos]; rewrite ?Pos2Z.inj_succ.
  - rewrite IH. cbn [Z.log2]. destruct p; cbn; lia.
  - rewrite IH. cbn [Z.log2]. destruct p; cbn; lia.
  - reflexivity.
Qed.

Lemma Zdigits2_log2 (m : Z) : 0 < m -> Zdigits2 m = Z.log2 m + 1.
Proof.
  intros Hm. destruct m as [|p|p]; try lia. apply digits2_pos_log2.
Qed.

Lemma iter_xO_value (p k : positive) :
  Zpos (Pos.iter xO p k) = Zpos p * 2 ^ Zpos k.
Proof.
  induction k as [|k IH] using Pos.peano_ind.
  - cbn [Pos.iter]. lia.
  - rewrite Pos.iter_succ, Pos2Z.inj_xO, IH, Pos2Z.inj_succ, Z.pow_succ_r by lia.
    lia.
Qed.

Lemma iter_xO_digits (p k : positive) :
  Zpos (digits2_pos (Pos.iter xO p k)) = Zpos (digits2_pos p) + Zpos k.
Proof.
  induction k as [|k IH] using Pos.peano_ind.
  - cbn [Pos.iter digits2_pos]. lia.
  - rewrite Pos.iter_succ. cbn [digits2_pos].
    rewrite Pos2Z.inj_succ, IH, Pos2Z.inj_succ. lia.
Qed.

(** A mantissa of 53 bits with an exponent in range needs no rounding. *)
Lemma binary_round_aux_canonical (s : bool) (m : positive) (e : Z) :
  Zpos (digits2_pos m) = 53 -> - 1074 <= e <= 971 ->
  binary_round_aux 53 1024 s (Zpos m) e loc_Exact = S754_finite s m e.
Proof.
  intros Hd He.
  assert (Hs : shr_fexp 53 1024 (Zpos m) e loc_Exact =
               ({| shr_m := Zpos m; shr_r := false; shr_s := false |}, e)).
  { unfold shr_fexp, fexp, emin. cbn [Zdigits2]. rewrite Hd.
    replace (Z.max (53 + e - 53) (3 - 1024 - 53) - e) with 0 by lia.
    reflexivity. }
  unfold binary_round_aux. rewrite Hs.
  cbn [shr_m loc_of_shr_record round_nearest_even]. rewrite Hs.
  cbn [shr_m].
  replace (e <=? 1024 - 53) with true by (symmetry; apply Z.leb_le; lia).
  reflexivity.
Qed.

Lemma ofZ_exact (p : positive) :
  Zpos p < 2 ^ 53 ->
  exists m e,
    float64.ofZ (Zpos p) = S754_finite false m e /\
    Zpos (digits2_pos m) = 53 /\ - 52 <= e <= 0 /\
    Zpos m = Zpos p * 2 ^ (- e).
Proof.
  intros Hp.
  assert (Hd : 1 <= Zpos (digits2_pos p) <= 53).
  { rewrite digits2_pos_log2.
    assert (Z.log2 (Zpos p) < 53) by (apply Z.log2_lt_pow2; lia).
    pose proof (Z.log2_nonneg (Zpos p)). lia. }
  unfold float64.ofZ, float64.prec, float64.emax, binary_normalize, binary_round.
  unfold fexp at 1. unfold emin, shl_align.
  replace (Z.max (Zpos (digits2_pos p) + 0 - 53) (3 - 1024 - 53) - 0)
    with (Zpos (digits2_pos p) - 53) by lia.
  destruct (Zpos (digits2_pos p) - 53) as [|k|k] eqn:Ek; [|lia|].
  - exists p, 0. rewrite binary_round_aux_canonical by lia.
    repeat split; try lia.
  - exists (Pos.iter xO p k), (Z.max (Zpos (digits2_pos p) + 0 - 53) (3 - 1024 - 53)).
    rewrite binary_round_aux_canonical.
    + repeat split; try lia.
      * rewrite iter_xO_digits. lia.
      * rewrite iter_xO_value. f_equal. f_equal. lia.
    + rewrite iter_xO_digits. lia.
    + lia.
Qed.

Lemma gb_value :
  float64.ofZ (1024 * 1024 * 1024) = S754_finite false (2 ^ 52) (- 22).
Proof. reflexivity. Qed.

Lemma div_eucl_pair (a b : Z) : Z.div_eucl a b = (a / b, a mod b).
Proof.
  unfold Z.div, Z.modulo. now destruct (Z.div_eucl a b).
Qed.

(** Dividing a normal value by [2 ^ 30] lowers the exponent by 30. *)
Lemma div_gb (m : positive) (e : Z) :
  Zpos (digits2_pos m) = 53 -> - 52 <= e <= 12 ->
  float64.div (S754_finite false m e) (float64.ofZ (1024 * 1024 * 1024)) =
  S754_finite false m (e - 30).
Proof.
  intros Hd He. rewrite gb_value.
  unfold float64.div, float64.prec, float64.emax, SFdiv, SFdiv_core_binary.
  cbn [Zdigits2]. rewrite Hd.
  replace (Zpos (digits2_pos (2 ^ 52))) with 53 by reflexivity.
  assert (He' : Z.min (fexp 53 1024 (53 + e - (53 + -22))) (e - -22) = e - 31)
    by (unfold fexp, emin; lia).
  rewrite He'.
  replace (e - -22 - (e - 31)) with 53 by lia.
  rewrite div_eucl_pair.
  assert (Hq : Z.shiftl (Zpos m) 53 / Zpos (2 ^ 52) = Zpos (xO m)).
  { rewrite Z.shiftl_mul_pow2 by lia.
    change (Zpos (2 ^ 52)) with (2 ^ 52).
    replace (Zpos m * 2 ^ 53) with (Zpos (xO m) * 2 ^ 52) by lia.
    apply Z.div_mul. lia. }
  assert (Hr : Z.shiftl (Zpos m) 53 mod Zpos (2 ^ 52) = 0).
  { rewrite Z.shiftl_mul_pow2 by lia.
    change (Zpos (2 ^ 52)) with (2 ^ 52).
    replace (Zpos m * 2 ^ 53) with (Zpos (xO m) * 2 ^ 52) by lia.
    apply Z.mod_mul. lia. }
  match goal with
  | |- context [new_location _ ?r] =>
    replace r with 0 by (symmetry; exact Hr)
  end.
  match goal with
  | |- binary_round_aux _ _ _ ?q _ _ = _ =>
    replace q with (Zpos (xO m)) by (symmetry; exact Hq)
  end.
  replace (new_location (Zpos (2 ^ 52)) 0) with loc_Exact by reflexivity.
  cbn [xorb].
  unfold binary_round_aux.
  assert (Hs1 : shr_fexp 53 1024 (Zpos (xO m)) (e - 31) loc_Exact =
                ({| shr_m := Zpos m; shr_r := false; shr_s := false |}, e - 30)).
  { unfold shr_fexp, fexp, emin. cbn [Zdigits2 digits2_pos].
    rewrite Pos2Z.inj_succ, Hd.
    replace (Z.max (Z.succ 53 + (e - 31) - 53) (3 - 1024 - 53) - (e - 31))
      with 1 by lia.
    unfold shr. cbn [iter_pos shr_record_of_loc shr_1 orb].
    f_equal. lia. }
  rewrite Hs1. cbn [shr_m loc_of_shr_record round_nearest_even].
  assert (Hs2 : shr_fexp 53 1024 (Zpos m) (e - 30) loc_Exact =
                ({| shr_m := Zpos m; shr_r := false; shr_s := false |}, e - 30)).
  { unfold shr_fexp, fexp, emin. cbn [Zdigits2]. rewrite Hd.
    replace (Z.max (53 + (e - 30) - 53) (3 - 1024 - 53) - (e - 30)) with 0 by lia.
    reflexivity. }
  rewrite Hs2. cbn [shr_m].
  replace (e - 30 <=? 1024 - 53) with true by (symmetry; apply Z.leb_le; lia).
  reflexivity.
Qed.


(** ** Rounding in the conversion of large integers *)

Lemma iter_pos_nat {A : Type} (f : A -> A) (p : positive) :
  forall x, iter_pos f p x = Nat.iter (Pos.to_nat p) f x.
Proof.
  induction p as [p IH|p IH|]; intros x; cbn [iter_pos].
  - rewrite !IH, Pos2Nat.inj_xI.
    replace (S (2 * Pos.to_nat p)) with (Pos.to_nat p + (Pos.to_nat p + 1))%nat
      by lia.
    rewrite !Nat.iter_add. reflexivity.
  - rewrite !IH, Pos2Nat.inj_xO.
    replace (2 * Pos.to_nat p)%nat with (Pos.to_nat p + Pos.to_nat p)%nat by lia.
    now rewrite Nat.iter_add.
  - reflexivity.
Qed.

Lemma shr_1_nonneg (m : Z) (r s : bool) :
  0 <= m ->
  shr_1 {| shr_m := m; shr_r := r; shr_s := s |} =
  {| shr_m := m / 2; shr_r := Z.odd m; shr_s := r || s |}.
Proof.
  intros Hm. destruct m as [|p|p]; [reflexivity| |lia].
  destruct p as [p|p|]; cbn [shr_1 Z.odd].
  - f_equal. rewrite Pos2Z.inj_xI.
    apply (Z.div_unique _ _ _ 1); lia.
  - f_equal. rewrite Pos2Z.inj_xO.
    apply (Z.div_unique _ _ _ 0); lia.
  - reflexivity.
Qed.

(** After [n + 1] shifts of an exact record: the quotient, the bit that
    went last and whether any bit went before it. *)
Lemma shr_iter (m : Z) (n : nat) :
  0 <= m ->
  Nat.iter (S n) shr_1 {| shr_m := m; shr_r := false; shr_s := false |} =
  {| shr_m := m / 2 ^ Z.of_nat (S n);
     shr_r := Z.odd (m / 2 ^ Z.of_nat n);
     shr_s := negb (m mod 2 ^ Z.of_nat n =? 0) |}.
Proof.
  intros Hm. induction n as [|n IH].
  - cbn [Nat.iter]. rewrite shr_1_nonneg by assumption.
    change (2 ^ Z.of_nat 0) with 1. change (2 ^ Z.of_nat 1) with 2.
    rewrite Z.div_1_r, Z.mod_1_r. reflexivity.
  - rewrite Nat.iter_succ, IH.
    assert (Hp : 0 < 2 ^ Z.of_nat n) by (apply Z.pow_pos_nonneg; lia).
    assert (Hq : 0 <= m / 2 ^ Z.of_nat (S n)).
    { apply Z.div_pos; [assumption|apply Z.pow_pos_nonneg; lia]. }
    rewrite shr_1_nonneg by assumption.
    assert (E1 : 2 ^ Z.of_nat (S n) = 2 ^ Z.of_nat n * 2).
    { rewrite Nat2Z.inj_succ, Z.pow_succ_r by lia. lia. }
    assert (E2 : 2 ^ Z.of_nat (S (S n)) = 2 ^ Z.of_nat (S n) * 2).
    { rewrite (Nat2Z.inj_succ (S n)), Z.pow_succ_r by lia. lia. }
    f_equal.
    + rewrite E2, Z.div_div by lia. reflexivity.
    + rewrite E1, Z.rem_mul_r by lia.
      set (q := m / 2 ^ Z.of_nat n).
      set (r := m mod 2 ^ Z.of_nat n).
      assert (Hr : 0 <= r < 2 ^ Z.of_nat n) by (apply Z.mod_pos_bound; lia).
      rewrite (Zmod_odd q).
      destruct (Z.odd q); destruct (r =? 0) eqn:Er;
        match goal with
        | |- _ = negb (?y =? 0) => destruct (y =? 0) eqn:Ey
        end; cbn [orb negb]; try reflexivity; exfalso;
        rewrite ?Z.eqb_eq, ?Z.eqb_neq in *; lia.
Qed.

(** Shifting [k] bits out and rounding to nearest even is the rounded
    division by [2 ^ k]. *)
Lemma shr_round (m : Z) (k : positive) :
  0 <= m ->
  let mrs := iter_pos shr_1 k {| shr_m := m; shr_r := false; shr_s := false |} in
  round_nearest_even (shr_m mrs) (loc_of_shr_record mrs) =
  fmt.roundHalfEven m (2 ^ Zpos k).
Proof.
  intros Hm mrs. subst mrs. rewrite iter_pos_nat.
  destruct (Pos.to_nat k) as [|n] eqn:En; [lia|].
  rewrite shr_iter by assumption.
  assert (Ek : Zpos k = Z.of_nat (S n)) by lia.
  rewrite Ek. clear Ek En k.
  assert (Hh : 0 < 2 ^ Z.of_nat n) by (apply Z.pow_pos_nonneg; lia).
  assert (E1 : 2 ^ Z.of_nat (S n) = 2 ^ Z.of_nat n * 2).
  { rewrite Nat2Z.inj_succ, Z.pow_succ_r by lia. lia. }
  unfold fmt.roundHalfEven. rewrite !E1.
  rewrite Z.rem_mul_r by lia.
  set (h := 2 ^ Z.of_nat n) in *.
  set (q := m / (h * 2)).
  set (r0 := m mod h).
  assert (Hr : 0 <= r0 < h) by (apply Z.mod_pos_bound; lia).
  rewrite (Zmod_odd (m / h)).
  cbn [shr_m loc_of_shr_record].
  destruct (Z.odd (m / h)); destruct (r0 =? 0) eqn:Er; cbn [negb];
    rewrite ?Z.eqb_eq, ?Z.eqb_neq in Er; cbn [round_nearest_even].
  - replace (2 * (r0 + h * 1) ?= h * 2) with Eq
      by (symmetry; apply Z.compare_eq_iff; lia).
    reflexivity.
  - replace (2 * (r0 + h * 1) ?= h * 2) with Gt
      by (symmetry; apply Z.compare_gt_iff; lia).
    reflexivity.
  - replace (2 * (r0 + h * 0) ?= h * 2) with Lt
      by (symmetry; apply Z.compare_lt_iff; lia).
    reflexivity.
  - replace (2 * (r0 + h * 0) ?= h * 2) with Lt
      by (symmetry; apply Z.compare_lt_iff; lia).
    reflexivity.
Qed.

Lemma roundHalfEven_bounds (n den : Z) :
  0 < den -> n / den <= fmt.roundHalfEven n den <= n / den + 1.
Proof.
  intros Hd. unfold fmt.roundHalfEven.
  destruct (2 * (n mod den) ?= den); [destruct (Z.even (n / den))| |]; lia.
Qed.

Lemma roundHalfEven_mono (a b den : Z) :
  0 < den -> a <= b -> fmt.roundHalfEven a den <= fmt.roundHalfEven b den.
Proof.
  intros Hd Hab.
  pose proof (Z.div_le_mono a b den Hd Hab) as Hq.
  pose proof (roundHalfEven_bounds a den Hd) as Ha.
  pose proof (roundHalfEven_bounds b den Hd) as Hb.
  destruct (Z.eq_dec (a / den) (b / den)) as [E|E]; [|lia].
  pose proof (Z.div_mod a den ltac:(lia)) as Da.
  pose proof (Z.div_mod b den ltac:(lia)) as Db.
  assert (Hr : a mod den <= b mod den) by (rewrite E in Da; lia).
  unfold fmt.roundHalfEven. rewrite E.
  destruct (Z.compare_spec (2 * (a mod den)) den);
    destruct (Z.compare_spec (2 * (b mod den)) den);
    destruct (Z.even (b / den)); lia.
Qed.

Lemma ofZ_large (p : positive) :
  2 ^ 53 <= Zpos p < 2 ^ 64 ->
  exists m e,
    float64.ofZ (Zpos p) = S754_finite false m e /\
    Zpos (digits2_pos m) = 53 /\ 1 <= e <= 12 /\
    Zpos m * 2 ^ e = float64Value (Zpos p).
Proof.
  intros Hp.
  assert (Hl : 53 <= Z.log2 (Zpos p) < 64).
  { split; [apply Z.log2_le_pow2; lia|apply Z.log2_lt_pow2; lia]. }
  pose proof (Z.log2_spec (Zpos p) ltac:(lia)) as Hs.
  set (k := Z.log2 (Zpos p) - 52) in *.
  assert (Hk : 1 <= k <= 11) by lia.
  assert (Hpk : 2 ^ 52 * 2 ^ k <= Zpos p < 2 ^ 53 * 2 ^ k).
  { rewrite <- !Z.pow_add_r by lia.
    replace (52 + k) with (Z.log2 (Zpos p)) by lia.
    replace (53 + k) with (Z.succ (Z.log2 (Zpos p))) by lia. exact Hs. }
  assert (H2k : 0 < 2 ^ k) by (apply Z.pow_pos_nonneg; lia).
  assert (Hq : 2 ^ 52 <= Zpos p / 2 ^ k < 2 ^ 53).
  { split; [apply Z.div_le_lower_bound; lia|apply Z.div_lt_upper_bound; lia]. }
  pose proof (roundHalfEven_bounds (Zpos p) (2 ^ k) H2k) as Hm1.
  set (m1 := fmt.roundHalfEven (Zpos p) (2 ^ k)) in *.
  assert (Hv : float64Value (Zpos p) = m1 * 2 ^ k).
  { unfold float64Value. fold k.
    replace (k <=? 0) with false by (symmetry; apply Z.leb_gt; lia).
    reflexivity. }
  rewrite Hv.
  unfold float64.ofZ, float64.prec, float64.emax, binary_normalize, binary_round.
  rewrite digits2_pos_log2.
  assert (Hf : fexp 53 1024 (Z.log2 (Zpos p) + 1 + 0) = k)
    by (unfold fexp, emin; lia).
  rewrite Hf. unfold shl_align.
  destruct k as [|k0|k0] eqn:Ek; try lia. cbn [Z.sub Z.opp Z.add].
  unfold binary_round_aux.
  assert (Hs1 : shr_fexp 53 1024 (Zpos p) 0 loc_Exact =
                (iter_pos shr_1 k0
                   {| shr_m := Zpos p; shr_r := false; shr_s := false |},
                 Zpos k0)).
  { unfold shr_fexp. rewrite Zdigits2_log2 by lia. rewrite Hf.
    reflexivity. }
  rewrite Hs1.
  rewrite (shr_round (Zpos p) k0) by lia. fold m1.
  destruct (Z.eq_dec m1 (2 ^ 53)) as [E|E].
  - exists (2 ^ 52)%positive, (Zpos k0 + 1).
    rewrite E.
    replace (shr_fexp 53 1024 (2 ^ 53) (Zpos k0) loc_Exact)
      with ({| shr_m := 2 ^ 52; shr_r := false; shr_s := false |}, Zpos k0 + 1).
    + cbn [shr_m].
      replace (Zpos k0 + 1 <=? 1024 - 53) with true
        by (symmetry; apply Z.leb_le; lia).
      repeat split; try lia.
      rewrite Z.pow_add_r by lia. lia.
    + unfold shr_fexp.
      replace (Zdigits2 (2 ^ 53)) with 54 by reflexivity.
      replace (fexp 53 1024 (54 + Zpos k0) - Zpos k0) with 1
        by (unfold fexp, emin; lia).
      reflexivity.
  - destruct m1 as [|m|m] eqn:Em; try lia.
    exists m, (Zpos k0).
    assert (Hd : Zpos (digits2_pos m) = 53).
    { rewrite digits2_pos_log2.
      rewrite (Z.log2_unique (Zpos m) 52); lia. }
    replace (shr_fexp 53 1024 (Zpos m) (Zpos k0) loc_Exact)
      with ({| shr_m := Zpos m; shr_r := false; shr_s := false |}, Zpos k0).
    + cbn [shr_m].
      replace (Zpos k0 <=? 1024 - 53) with true
        by (symmetry; apply Z.leb_le; lia).
      repeat split; lia.
    + unfold shr_fexp. cbn [Zdigits2]. rewrite Hd.
      replace (fexp 53 1024 (53 + Zpos k0) - Zpos k0) with 0
        by (unfold fexp, emin; lia).
      reflexivity.
Qed.

Lemma float64Value_small (n : Z) : 0 <= n < 2 ^ 53 -> float64Value n = n.
Proof.
  intros Hn. unfold float64Value.
  destruct (Z.eq_dec n 0) as [->|Hz]; [reflexivity|].
  assert (Z.log2 n < 53) by (apply Z.log2_lt_pow2; lia).
  replace (Z.log2 n - 52 <=? 0) with true by (symmetry; apply Z.leb_le; lia).
  reflexivity.
Qed.

(** [float64(n)] for a positive [n] below [2 ^ 64] is a normal number
    that stands for [float64Value n]. *)
Lemma ofZ_value (n : Z) :
  0 < n < 2 ^ 64 ->
  exists m e,
    float64.ofZ n = S754_finite false m e /\
    Zpos (digits2_pos m) = 53 /\ - 52 <= e <= 12 /\
    Zpos m * 2 ^ (e + 52) = float64Value n * 2 ^ 52.
Proof.
  intros Hn. destruct n as [|p|p]; try lia.
  destruct (Z_lt_le_dec (Zpos p) (2 ^ 53)) as [Hs|Hl].
  - destruct (ofZ_exact p Hs) as (m & e & Ho & Hd & He & Hm).
    exists m, e. rewrite float64Value_small by lia.
    repeat split; try assumption; try lia.
    rewrite Hm, <- Z.mul_assoc, <- Z.pow_add_r by lia.
    f_equal. f_equal. lia.
  - destruct (ofZ_large p) as (m & e & Ho & Hd & He & Hm); [lia|].
    exists m, e. repeat split; try assumption; try lia.
    rewrite <- Hm, Z.pow_add_r by lia. lia.
Qed.

Lemma float64Value_lt (n : Z) : 0 <= n < 2 ^ 64 -> 0 <= float64Value n < 2 ^ 66.
Proof.
  intros Hn. destruct (Z.eq_dec n 0) as [->|Hz]; [cbv; split; congruence|].
  destruct (ofZ_value n) as (m & e & _ & Hd & He & Hm); [lia|].
  rewrite digits2_pos_log2 in Hd.
  assert (Hm53 : Zpos m < 2 ^ 53).
  { apply Z.log2_lt_pow2; lia. }
  assert (H1 : 0 < 2 ^ (e + 52) <= 2 ^ 64).
  { split; [apply Z.pow_pos_nonneg; lia|apply Z.pow_le_mono_r; lia]. }
  nia.
Qed.

(** The leading 53 bits of a number of more than 53 bits *)
Lemma leading_bits (n : Z) :
  0 < Z.log2 n - 52 ->
  let k := Z.log2 n - 52 in
  0 < 2 ^ k /\ 2 ^ 52 <= n / 2 ^ k < 2 ^ 53.
Proof.
  intros Hk k.
  assert (Hn : 0 < n).
  { destruct n; try lia; cbn in Hk; lia. }
  pose proof (Z.log2_spec n Hn) as Hs.
  assert (H2k : 0 < 2 ^ k) by (apply Z.pow_pos_nonneg; lia).
  assert (Hpk : 2 ^ 52 * 2 ^ k <= n < 2 ^ 53 * 2 ^ k).
  { rewrite <- !Z.pow_add_r by lia.
    replace (52 + k) with (Z.log2 n) by lia.
    replace (53 + k) with (Z.succ (Z.log2 n)) by lia. exact Hs. }
  split; [assumption|].
  split; [apply Z.div_le_lower_bound; lia|apply Z.div_lt_upper_bound; lia].
Qed.

(** The conversion to [float64] keeps the order. *)
Lemma float64Value_mono (a b : Z) :
  0 <= a <= b -> float64Value a <= float64Value b.
Proof.
  intros Hab. unfold float64Value.
  pose proof (Z.log2_le_mono a b ltac:(lia)) as Hl.
  destruct (Z.leb_spec (Z.log2 b - 52) 0) as [Hb|Hb].
  - replace (Z.log2 a - 52 <=? 0) with true
      by (symmetry; apply Z.leb_le; lia).
    lia.
  - destruct (leading_bits b Hb) as (Hpb & Hqb).
    pose proof (roundHalfEven_bounds b _ Hpb) as Hrb.
    destruct (Z.leb_spec (Z.log2 a - 52) 0) as [Ha|Ha].
    + assert (a < 2 ^ 53).
      { destruct (Z.eq_dec a 0) as [->|]; [lia|].
        apply Z.log2_lt_pow2; lia. }
      assert (2 ^ 1 <= 2 ^ (Z.log2 b - 52)) by (apply Z.pow_le_mono_r; lia).
      nia.
    + destruct (leading_bits a Ha) as (Hpa & Hqa).
      pose proof (roundHalfEven_bounds a _ Hpa) as Hra.
      destruct (Z.eq_dec (Z.log2 a) (Z.log2 b)) as [E|E].
      * rewrite E.
        pose proof (roundHalfEven_mono a b _ Hpb ltac:(lia)). nia.
      * assert (2 ^ (Z.log2 b - 52) = 2 ^ (Z.log2 b - Z.log2 a - 1) * 2 * 2 ^ (Z.log2 a - 52)).
        { replace (Z.log2 b - 52)
            with (Z.log2 b - Z.log2 a - 1 + 1 + (Z.log2 a - 52)) at 1 by lia.
          rewrite !Z.pow_add_r by lia. reflexivity. }
        assert (0 < 2 ^ (Z.log2 b - Z.log2 a - 1))
          by (apply Z.pow_pos_nonneg; lia).
        nia.
Qed.

(** The conversion to [float64], the division by [2 ^ 30] and the
    conversion back to [int], on a [uint64]. *)
Lemma gigabytes_value (other : spec_float -> Z) (n : Z) :
  0 <= n < 2 ^ 64 ->
  float64.toInt other
    (float64.div (float64.ofZ n) (float64.ofZ (1024 * 1024 * 1024))) =
  float64Value n / 2 ^ 30.
Proof.
  intros Hn. destruct (Z.eq_dec n 0) as [->|Hz]; [reflexivity|].
  pose proof (float64Value_lt n Hn) as Hb.
  destruct (ofZ_value n) as (m & e & Ho & Hd & He & Hm); [lia|].
  rewrite Ho, div_gb by assumption.
  unfold float64.toInt, float64.truncate.
  assert (Hv : Z.shiftl (Zpos m) (e - 30) = float64Value n / 2 ^ 30).
  { replace (e - 30) with (- (30 - e)) by lia.
    rewrite Z.shiftl_opp_r, Z.shiftr_div_pow2 by lia.
    assert (H1 : 0 < 2 ^ (e + 52)) by (apply Z.pow_pos_nonneg; lia).
    rewrite <- (Z.div_mul_cancel_r (Zpos m) (2 ^ (30 - e)) (2 ^ (e + 52)))
      by lia.
    rewrite Hm, <- Z.pow_add_r by lia.
    replace (30 - e + (e + 52)) with (30 + 52) by lia.
    rewrite Z.pow_add_r by lia.
    apply Z.div_mul_cancel_r; lia. }
  rewrite Hv.
  assert (Hq : 0 <= float64Value n / 2 ^ 30 < 2 ^ 36).
  { split; [apply Z.div_pos; lia|apply Z.div_lt_upper_bound; lia]. }
  unfold inInt64.
  replace (- 2 ^ 63 <=? float64Value n / 2 ^ 30) with true
    by (symmetry; apply Z.leb_le; lia).
  replace (float64Value n / 2 ^ 30 <? 2 ^ 63) with true
    by (symmetry; apply Z.ltb_lt; lia).
  reflexivity.
Qed.

Lemma gigabytes_exact (other : spec_float -> Z) (n : Z) :
  0 <= n < 2 ^ 53 ->
  float64.toInt other
    (float64.div (float64.ofZ n) (float64.ofZ (1024 * 1024 * 1024))) =
  n / 2 ^ 30.
Proof.
  intros Hn. rewrite gigabytes_value by lia.
  now rewrite float64Value_small.
Qed.

(** ** [getDisk] on statistics that stay in range *)

Lemma getDisk_value (P : Platform) (h : HostEnv) (path : string)
  (st : Statfs_t) :
  statfs h path = Some st ->
  0 <= Bavail st <= Blocks st -> 0 <= Bsize st ->
  Blocks st * Bsize st < 2 ^ 64 ->
  getDisk h path =
  (float64Value (Blocks st * Bsize st) / 2 ^ 30,
   float64Value (Blocks st * Bsize st - Bavail st * Bsize st) / 2 ^ 30).
Proof.
  intros Hst HV HS HB. unfold getDisk. rewrite Hst.
  destruct st as [B S V]. cbn [Blocks Bsize Bavail] in *.
  assert (HBS : 0 <= B * S) by nia.
  assert (HVS : 0 <= V * S <= B * S) by nia.
  assert (E1 : wrapU64 (B * wrapU64 S) = B * S).
  { unfold wrapU64. destruct (Z.eq_dec B 0) as [->|Hb]; [reflexivity|].
    rewrite (Z.mod_small S) by nia. apply Z.mod_small. lia. }
  assert (E2 : wrapU64 (V * wrapU64 S) = V * S).
  { unfold wrapU64. destruct (Z.eq_dec V 0) as [->|Hv]; [reflexivity|].
    rewrite (Z.mod_small S) by nia. apply Z.mod_small. lia. }
  rewrite E1, E2.
  assert (E3 : wrapU64 (B * S - V * S) = B * S - V * S).
  { unfold wrapU64. apply Z.mod_small. lia. }
  rewrite E3, !gigabytes_value by lia.
  reflexivity.
Qed.

Lemma getDisk_unavailable (P : Platform) (h : HostEnv) (path : string) :
  statfs h path = None -> getDisk h path = (0, 0).
Proof. intros Hst. unfold getDisk. now rewrite Hst. Qed.

(** ** The printing loop *)

Lemma printLine_joined (lg dt : list string) (i : nat) :
  printLine lg dt i =
  Ret (joined (nth i lg EmptyString) (nth i dt EmptyString)).
Proof.
  unfold printLine, joined.
  assert (Hread : forall xs : list string,
             (if (i <? List.length xs)%nat then index xs i else Ret EmptyString) =
             Ret (nth i xs EmptyString)).
  { intros xs. destruct (i <? List.length xs)%nat eqn:E.
    - apply Nat.ltb_lt in E. now apply index_in_range.
    - apply Nat.ltb_ge in E. now rewrite nth_overflow. }
  now rewrite !Hread.
Qed.

Lemma printLoop_map (lg dt : list string) (todo : nat) :
  forall i,
    printLoop lg dt i todo =
    Ret (map (fun j => joined (nth j lg EmptyString) (nth j dt EmptyString))
           (seq i todo)).
Proof.
  induction todo as [|k IH]; intros i; cbn [printLoop seq map].
  - reflexivity.
  - now rewrite printLine_joined, IH.
Qed.

(** ** Each resolver returns a measured value or its fallback *)

Lemma getEnvOrDefault_viaEnv (h : HostEnv) (key : string) :
  viaEnv h key (getEnvOrDefault h key NA).
Proof.
  unfold viaEnv, getEnvOrDefault, Getenv. split.
  - intros [-> | ->]; reflexivity.
  - intros v -> Hv. destruct (String.eqb_spec v EmptyString); congruence.
Qed.

Lemma getCPU_returns (h : HostEnv) : exists s, getCPU h = Ret s.
Proof.
  unfold getCPU. destruct (file h "/proc/cpuinfo") as [content|]; [|eauto].
  destruct (getCPU_scan_returns (bufio.scanLines content)) as [[model|] ->];
    cbn [bind]; eauto.
Qed.

Lemma getUptime_returns (P : Platform) (h : HostEnv) :
  exists s, getUptime h = Ret s.
Proof.
  unfold getUptime. destruct (file h "/proc/uptime") as [data|]; [|eauto].
  destruct (strings.Fields data) as [|tok rest]; [cbn; eauto|].
  cbn. destruct (ParseFloat tok); eauto.
Qed.

Lemma getMemory_returns (h : HostEnv) : exists p, getMemory h = Ret p.
Proof.
  destruct (file h "/proc/meminfo") as [content|] eqn:Hf.
  - destruct (getMemory_readable h content Hf) as (mt & ma & _ & ->). eauto.
  - rewrite getMemory_unavailable by assumption. eauto.
Qed.

Lemma getOS_cases (P : Platform) (h : HostEnv) :
  getOS h = GOOS \/ osMeasured h (getOS h).
Proof.
  unfold getOS. destruct (file h "/etc/os-release") as [content|] eqn:Hf;
    [|now left].
  destruct (getOS_scan (bufio.scanLines content)) as [name|] eqn:Es;
    [|now left].
  right. destruct (getOS_scan_some _ _ Es) as (value & Hin & Hn).
  now exists content, value.
Qed.

Lemma getCPU_cases (h : HostEnv) (model : string) :
  getCPU h = Ret model -> model = NA \/ cpuMeasured h model.
Proof.
  unfold getCPU. destruct (file h "/proc/cpuinfo") as [content|] eqn:Hf.
  - destruct (getCPU_scan_returns (bufio.scanLines content)) as [[m|] Es];
      rewrite Es; cbn [bind]; intros E; inversion E; subst.
    + right. destruct (getCPU_scan_some _ _ Es) as (label & value & Hrest).
      now exists content, label, value.
    + now left.
  - intros E. inversion E. now left.
Qed.

Lemma getUptime_cases (P : Platform) (h : HostEnv) (text : string) :
  getUptime h = Ret text -> text = NA \/ uptimeMeasured h text.
Proof.
  unfold getUptime. destruct (file h "/proc/uptime") as [data|] eqn:Hf.
  - destruct (strings.Fields data) as [|tok rest] eqn:HF; cbn.
    + intros E. inversion E. now left.
    + destruct (ParseFloat tok) as [seconds|] eqn:Hp; intros E; inversion E.
      * right. now exists data, tok, rest, seconds.
      * now left.
  - intros E. inversion E. now left.
Qed.

Lemma getMemory_cases (h : HostEnv) (total used : Z) :
  getMemory h = Ret (total, used) ->
  (total = 0 /\ used = 0) \/ memoryMeasured h total used.
Proof.
  destruct (file h "/proc/meminfo") as [content|] eqn:Hf.
  - destruct (getMemory_readable h content Hf) as (mt & ma & Es & ->).
    intros E. inversion E. right. now exists content, mt, ma.
  - rewrite getMemory_unavailable by assumption.
    intros E. inversion E. now left.
Qed.

(** * The claims *)

(** C1.  On every host the collection returns a complete record: no
    resolver ends in a panic or hands an error on.  Every string field is
    a measured value or a fallback: the OS name comes from a
    [PRETTY_NAME=] line or is [runtime.GOOS]; the kernel is the trimmed
    output of the command or ["N/A"]; the architecture is the one of the
    build; the four session fields are the values of their variables, or
    ["N/A"] when the variable is not set or is empty; the CPU model and
    the uptime come from their files or are ["N/A"].  Every integer field
    is a measured value or 0: the memory pair comes from the scan of the
    memory file or is (0, 0), the disk pair comes from the statistics of
    the root filesystem and is (0, 0) when the query fails. *)
Theorem getSystemInfo_total (P : Platform) (h : HostEnv) :
  exists info,
    getSystemInfo h = Ret info /\
    (OS info = GOOS \/ osMeasured h (OS info)) /\
    (file h "/etc/os-release" = None -> OS info = GOOS) /\
    (forall out, command h "uname" ["-r"] = Some out ->
                 Kernel info = strings.TrimSpace out) /\
    (command h "uname" ["-r"] = None -> Kernel info = NA) /\
    Arch info = GOARCH /\
    viaEnv h "HOSTNAME" (Host info) /\
    viaEnv h "USER" (User info) /\
    viaEnv h "SHELL" (Shell info) /\
    viaEnv h "TERM" (Term info) /\
    (CPU info = NA \/ cpuMeasured h (CPU info)) /\
    (file h "/proc/cpuinfo" = None -> CPU info = NA) /\
    (Uptime info = NA \/ uptimeMeasured h (Uptime info)) /\
    (file h "/proc/uptime" = None -> Uptime info = NA) /\
    ((MemTotal info = 0 /\ MemUsed info = 0) \/
     memoryMeasured h (MemTotal info) (MemUsed info)) /\
    (file h "/proc/meminfo" = None -> MemTotal info = 0 /\ MemUsed info = 0) /\
    (DiskTotal info, DiskUsed info) = getDisk h "/" /\
    (statfs h "/" = None -> DiskTotal info = 0 /\ DiskUsed info = 0).
Proof.
  destruct (getCPU_returns h) as [cpu Hcpu].
  destruct (getUptime_returns P h) as [up Hup].
  destruct (getMemory_returns h) as [[total used] Hmem].
  unfold getSystemInfo. rewrite Hcpu, Hup, Hmem. cbn [bind].
  eexists. split; [reflexivity|].
  cbn [OS Kernel Arch Host User Shell Term CPU Uptime
       MemUsed MemTotal DiskUsed DiskTotal fst snd].
  repeat match goal with |- _ /\ _ => split end;
    try apply getEnvOrDefault_viaEnv.
  - apply getOS_cases.
  - intros Hf. unfold getOS. now rewrite Hf.
  - intros out Hc. unfold runCmd. now rewrite Hc.
  - intros Hc. unfold runCmd. now rewrite Hc.
  - reflexivity.
  - now apply getCPU_cases.
  - intros Hf. unfold getCPU in Hcpu. rewrite Hf in Hcpu. now inversion Hcpu.
  - now apply getUptime_cases.
  - intros Hf. unfold getUptime in Hup. rewrite Hf in Hup. now inversion Hup.
  - now apply getMemory_cases.
  - intros Hf. rewrite (getMemory_unavailable h Hf) in Hmem.
    inversion Hmem. now split.
  - now destruct (getDisk h "/").
  - intros Hs. rewrite (getDisk_unavailable P h "/" Hs). now split.
Qed.

Lemma getSystemInfo_total_witness :
  exists info,
    getSystemInfo (P := linux_amd64) bareHost = Ret info /\
    OS info = "linux" /\ Kernel info = NA /\ Host info = NA /\
    CPU info = NA /\ Uptime info = NA /\
    (MemTotal info = 0 /\ MemUsed info = 0) /\
    (DiskTotal info = 0 /\ DiskUsed info = 0).
Proof.
  destruct (getSystemInfo_total linux_amd64 bareHost)
    as (info & Hret & _ & Hos & _ & Hk & _ & (Hhost & _) & _ & _ & _
        & _ & Hcpu & _ & Hup & _ & Hmem & _ & Hdisk).
  exists info.
  split; [exact Hret|].
  split; [exact (Hos eq_refl)|].
  split; [exact (Hk eq_refl)|].
  split; [exact (Hhost (or_introl eq_refl))|].
  split; [exact (Hcpu eq_refl)|].
  split; [exact (Hup eq_refl)|].
  split; [exact (Hmem eq_refl)|exact (Hdisk eq_refl)].
Defined.

(** C2, as the code has it.  Total is at least Used for the memory pair
    when the memory file reads and none of its [MemAvailable:] lines gives
    a negative amount, and for the disk pair when the statistics are
    available with no more available blocks than blocks, a block size that
    is not negative and a byte count [B * S] that fits a [uint64].  When
    the memory file does not open, or the query of the statistics fails,
    both members of the pair are 0. *)
Theorem total_at_least_used (P : Platform) (h : HostEnv) :
  (forall content,
      file h "/proc/meminfo" = Some content ->
      (forall l, In l (bufio.scanLines content) -> negativeAvail l = false) ->
      exists total used, getMemory h = Ret (total, used) /\ total >= used) /\
  (forall st,
      statfs h "/" = Some st ->
      0 <= Bavail st <= Blocks st -> 0 <= Bsize st ->
      Blocks st * Bsize st < 2 ^ 64 ->
      fst (getDisk h "/") >= snd (getDisk h "/")) /\
  (file h "/proc/meminfo" = None -> getMemory h = Ret (0, 0)) /\
  (statfs h "/" = None -> getDisk h "/" = (0, 0)).
Proof.
  split; [|split; [|split]].
  - intros content Hf Hneg.
    destruct (getMemory_readable h content Hf) as (mt & ma & Es & ->).
    pose proof (getMemory_scan_avail_nonneg _ _ _ _ _ Hneg (Z.le_refl 0) Es)
      as Hma.
    do 2 eexists. split; [reflexivity|].
    assert (0 <= Z.quot ma 1024) by (apply Z.quot_pos; lia). lia.
  - intros st Hst HV HS HB.
    rewrite (getDisk_value P h "/" st Hst HV HS HB). cbn [fst snd].
    apply Z.le_ge, Z.div_le_mono; [lia|].
    apply float64Value_mono. nia.
  - apply getMemory_unavailable.
  - apply getDisk_unavailable.
Qed.

Lemma total_at_least_used_witness :
  (exists total used,
      getMemory (hostWithFile "/proc/meminfo" meminfo_8000000_2000000) =
        Ret (total, used) /\ total >= used) /\
  fst (getDisk (P := linux_amd64) (hostWithStatfs statfs_100_40) "/") >=
  snd (getDisk (P := linux_amd64) (hostWithStatfs statfs_100_40) "/").
Proof.
  split.
  - destruct (total_at_least_used linux_amd64
                (hostWithFile "/proc/meminfo" meminfo_8000000_2000000))
      as (Hmem & _).
    apply (Hmem meminfo_8000000_2000000 eq_refl).
    intros l [<-|[<-|[<-|[<-|[]]]]]; reflexivity.
  - destruct (total_at_least_used linux_amd64 (hostWithStatfs statfs_100_40))
      as (_ & Hdisk & _).
    apply (Hdisk statfs_100_40 eq_refl); cbn; lia.
Defined.

(** The claim C2 as it stands fails on a memory file that reads and gives
    a negative available amount, and on statistics that announce more
    available blocks than blocks. *)
Lemma total_at_least_used_counterexample :
  getMemory (hostWithFile "/proc/meminfo" meminfo_negative) = Ret (4, 6) /\
  getDisk (P := linux_amd64) (hostWithStatfs statfs_avail_above) "/" =
    (0, 17179869183) /\
  ~ (forall (h : HostEnv) (total used : Z),
        file h "/proc/meminfo" <> None ->
        getMemory h = Ret (total, used) -> total >= used) /\
  ~ (forall (P : Platform) (h : HostEnv) (st : Statfs_t),
        statfs h "/" = Some st ->
        0 <= Blocks st < 2 ^ 64 -> 0 <= Bsize st < 2 ^ 63 ->
        0 <= Bavail st < 2 ^ 64 ->
        fst (getDisk h "/") >= snd (getDisk h "/")).
Proof.
  split; [reflexivity|split; [reflexivity|split]].
  - intros Hall.
    specialize (Hall (hostWithFile "/proc/meminfo" meminfo_negative) 4 6).
    assert (4 >= 6); [|lia].
    apply Hall; [discriminate|reflexivity].
  - intros Hall.
    specialize (Hall linux_amd64 (hostWithStatfs statfs_avail_above)
                  statfs_avail_above eq_refl).
    assert (E : getDisk (P := linux_amd64) (hostWithStatfs statfs_avail_above) "/"
                = (0, 17179869183)) by reflexivity.
    rewrite E in Hall. cbn [fst snd Blocks Bsize Bavail statfs_avail_above] in Hall.
    assert (0 >= 17179869183); [|lia].
    apply Hall; lia.
Qed.



(** C4.  When the memory file reads and holds one [MemTotal:] line and one
    [MemAvailable:] line whose second fields are the kilobyte counts [T]
    and [A], the memory resolver returns Total = [T / 1024] and Used =
    Total - [A / 1024], the divisions being those of integers.  With
    MemTotal 8000000 kB and MemAvailable 2000000 kB this is Total 7812 and
    Used 5859, and the presenter shows 75.0 percent. *)
Theorem getMemory_entries (h : HostEnv) :
  (forall content T A okT okA,
      file h "/proc/meminfo" = Some content ->
      entry "MemTotal:" (bufio.scanLines content) T okT ->
      entry "MemAvailable:" (bufio.scanLines content) A okA ->
      getMemory h = Ret (Z.quot T 1024, Z.quot T 1024 - Z.quot A 1024)) /\
  getMemory (hostWithFile "/proc/meminfo" meminfo_8000000_2000000) =
    Ret (7812, 5859) /\
  fmt.f1 (percent 5859 7812) = "75.0".
Proof.
  split; [|split; reflexivity].
  intros content T A okT okA. apply getMemory_of_entries.
Qed.

Lemma getMemory_entries_witness :
  getMemory (hostWithFile "/proc/meminfo" meminfo_8000000_2000000) =
  Ret (Z.quot 8000000 1024, Z.quot 8000000 1024 - Z.quot 2000000 1024).
Proof.
  destruct (getMemory_entries
              (hostWithFile "/proc/meminfo" meminfo_8000000_2000000))
    as (Hgen & _).
  apply (Hgen meminfo_8000000_2000000 8000000 2000000 true true eq_refl).
  - exists [], "MemTotal:        8000000 kB",
      ["MemFree:          500000 kB"; "MemAvailable:    2000000 kB";
       "Buffers:          100000 kB"],
      "MemTotal:", "8000000", ["kB"].
    repeat split.
    intros l [[]|[<-|[<-|[<-|[]]]]]; reflexivity.
  - exists ["MemTotal:        8000000 kB"; "MemFree:          500000 kB"],
      "MemAvailable:    2000000 kB", ["Buffers:          100000 kB"],
      "MemAvailable:", "2000000", ["kB"].
    repeat split.
    intros l [[<-|[<-|[]]]|[<-|[]]]; reflexivity.
Defined.

(** C5, as the code has it.  When the statistics of the root filesystem
    are available with a block count [B], a block size [S >= 0] and an
    available block count [V <= B], and [B * S] fits a [uint64], the disk
    resolver takes total bytes [B * S], free bytes [V * S] and used bytes
    total - free, converts each to [float64] and returns the integer part
    of its division by [2 ^ 30]; below [2 ^ 53] bytes the conversion is
    exact, so that Total = [B * S / 2 ^ 30] and Used =
    [(B * S - V * S) / 2 ^ 30].  A total of [100 * 2 ^ 30] bytes with
    [40 * 2 ^ 30] bytes free gives Total 100, Used 60 and 60.0 percent.
    When the query fails both are 0. *)
Theorem getDisk_gigabytes (P : Platform) (h : HostEnv) :
  (forall st,
      statfs h "/" = Some st ->
      0 <= Bavail st <= Blocks st -> 0 <= Bsize st ->
      Blocks st * Bsize st < 2 ^ 64 ->
      getDisk h "/" =
      (float64Value (Blocks st * Bsize st) / 2 ^ 30,
       float64Value (Blocks st * Bsize st - Bavail st * Bsize st) / 2 ^ 30)) /\
  (forall st,
      statfs h "/" = Some st ->
      0 <= Bavail st <= Blocks st -> 0 <= Bsize st ->
      Blocks st * Bsize st < 2 ^ 53 ->
      getDisk h "/" =
      (Blocks st * Bsize st / 2 ^ 30,
       (Blocks st * Bsize st - Bavail st * Bsize st) / 2 ^ 30)) /\
  (statfs h "/" = None -> getDisk h "/" = (0, 0)) /\
  Blocks statfs_100_40 * Bsize statfs_100_40 = 100 * 2 ^ 30 /\
  Bavail statfs_100_40 * Bsize statfs_100_40 = 40 * 2 ^ 30 /\
  getDisk (hostWithStatfs statfs_100_40) "/" = (100, 60) /\
  fmt.f1 (percent 60 100) = "60.0".
Proof.
  split; [|split; [|split; [|repeat split]]].
  - intros st. apply getDisk_value.
  - intros st Hst HV HS HB.
    rewrite (getDisk_value P h "/" st Hst HV HS) by lia.
    rewrite !float64Value_small by nia. reflexivity.
  - apply getDisk_unavailable.
Qed.

Lemma getDisk_gigabytes_witness :
  getDisk (P := linux_amd64) (hostWithStatfs statfs_100_40) "/" =
  (Blocks statfs_100_40 * Bsize statfs_100_40 / 2 ^ 30,
   (Blocks statfs_100_40 * Bsize statfs_100_40
    - Bavail statfs_100_40 * Bsize statfs_100_40) / 2 ^ 30).
Proof.
  destruct (getDisk_gigabytes linux_amd64 (hostWithStatfs statfs_100_40))
    as (_ & Hexact & _).
  apply (Hexact statfs_100_40 eq_refl); cbn; lia.
Defined.

(** The claim C5 as it stands fails where [B * S] leaves the range of a
    [uint64]: [2 ^ 52] blocks of 4096 bytes are [2 ^ 34] GB, and the
    resolver returns 0.  It fails as well where the conversion to
    [float64] rounds upward across a multiple of [2 ^ 30]. *)
Lemma getDisk_gigabytes_counterexample :
  getDisk (P := linux_amd64) (hostWithStatfs statfs_wrap) "/" = (0, 0) /\
  Blocks statfs_wrap * Bsize statfs_wrap / 2 ^ 30 = 2 ^ 34 /\
  getDisk (P := linux_amd64) (hostWithStatfs statfs_round) "/" =
    (8388609, 8388609) /\
  Blocks statfs_round * Bsize statfs_round / 2 ^ 30 = 8388608 /\
  ~ (forall (P : Platform) (h : HostEnv) (st : Statfs_t),
        statfs h "/" = Some st ->
        0 <= Blocks st < 2 ^ 64 -> 0 <= Bsize st < 2 ^ 63 ->
        0 <= Bavail st < 2 ^ 64 ->
        getDisk h "/" =
        (Blocks st * Bsize st / 2 ^ 30,
         (Blocks st * Bsize st - Bavail st * Bsize st) / 2 ^ 30)).
Proof.
  split; [reflexivity|split; [reflexivity|]].
  split; [reflexivity|split; [reflexivity|]].
  intros Hall.
  specialize (Hall linux_amd64 (hostWithStatfs statfs_wrap) statfs_wrap eq_refl).
  cbn [Blocks Bsize Bavail statfs_wrap] in Hall.
  assert (E : getDisk (P := linux_amd64) (hostWithStatfs statfs_wrap) "/" = (0, 0))
    by reflexivity.
  rewrite E in Hall.
  assert (Hc : (0, 0) = (2 ^ 52 * 4096 / 2 ^ 30,
                         (2 ^ 52 * 4096 - 0 * 4096) / 2 ^ 30)).
  { apply Hall; lia. }
  inversion Hc.
Qed.

(** C6.  The presenter derives each percentage as
    [float64(used) / float64(total) * 100] when the total is positive and
    as [0.0] otherwise, in particular when the total is 0; the lines it
    shows for memory and disk carry these two values with one decimal.
    The divisor of a division that takes place is never zero. *)
Theorem percent_guarded (P : Platform) (h : HostEnv) (info : SystemInfo) :
  (forall used total,
      0 < total ->
      percent used total =
      float64.mul (float64.div (float64.ofZ used) (float64.ofZ total))
        (float64.ofZ 100)) /\
  (forall used total, total <= 0 -> percent used total = S754_zero false) /\
  (forall used, percent used 0 = S754_zero false /\
                fmt.f1 (percent used 0) = "0.0") /\
  (forall total, 0 < total < 2 ^ 63 ->
                 forall s, float64.ofZ total <> S754_zero s) /\
  nth 9 (data h info) EmptyString =
    c "green" ++ "Mem:  " ++ c "reset" ++ fmt.d (MemUsed info) ++ "MB / "
      ++ fmt.d (MemTotal info) ++ "MB ("
      ++ fmt.f1 (percent (MemUsed info) (MemTotal info)) ++ "%)" /\
  nth 10 (data h info) EmptyString =
    c "green" ++ "Disk: " ++ c "reset" ++ fmt.d (DiskUsed info) ++ "GB / "
      ++ fmt.d (DiskTotal info) ++ "GB ("
      ++ fmt.f1 (percent (DiskUsed info) (DiskTotal info)) ++ "%)".
Proof.
  split; [|split; [|split; [|split; [|split; reflexivity]]]].
  - intros used total Ht. unfold percent.
    replace (total >? 0) with true; [reflexivity|].
    symmetry. rewrite Z.gtb_ltb. now apply Z.ltb_lt.
  - intros used total Ht. unfold percent.
    replace (total >? 0) with false; [reflexivity|].
    symmetry. rewrite Z.gtb_ltb. now apply Z.ltb_ge.
  - intros used. split; reflexivity.
  - intros total Ht s E.
    destruct (ofZ_value total) as (m & e & Ho & _); [lia|].
    rewrite Ho in E. discriminate.
Qed.

Lemma percent_guarded_witness :
  percent 5859 7812 =
  float64.mul (float64.div (float64.ofZ 5859) (float64.ofZ 7812))
    (float64.ofZ 100).
Proof.
  destruct (percent_guarded linux_amd64 bareHost sampleInfo) as (Hpos & _).
  apply Hpos. lia.
Defined.



(** C8.  The OS-name resolver reads the os-release file line by line and
    returns the value of the first [PRETTY_NAME=] line with the double
    quotes around it removed: the name returned neither begins nor ends
    with a double quote, and a file holding the line
    [PRETTY_NAME="Test OS 1.0"] gives exactly [Test OS 1.0].  When the
    file does not open, or no line read begins with [PRETTY_NAME=], the
    resolver returns [runtime.GOOS]. *)
Theorem getOS_pretty_name (P : Platform) (h : HostEnv) :
  (file h "/etc/os-release" = None -> getOS h = GOOS) /\
  (forall content,
      file h "/etc/os-release" = Some content ->
      absent "PRETTY_NAME=" (bufio.scanLines content) ->
      getOS h = GOOS) /\
  (forall (content : string) (pre : list string) (value : string)
          (post : list string),
      file h "/etc/os-release" = Some content ->
      bufio.scanLines content =
        (pre ++ ("PRETTY_NAME=" ++ value)%string :: post)%list ->
      absent "PRETTY_NAME=" pre ->
      getOS h = strings.Trim value (String DQUOTE EmptyString) /\
      (forall ch t, getOS h = String ch t -> ch <> DQUOTE) /\
      (forall body ch, getOS h = body ++ String ch EmptyString -> ch <> DQUOTE)) /\
  getOS (hostWithFile "/etc/os-release" os_release_test) = "Test OS 1.0".
Proof.
  split; [|split; [|split]].
  - intros Hf. unfold getOS. now rewrite Hf.
  - intros content Hf Hab. unfold getOS.
    now rewrite Hf, getOS_scan_none.
  - intros content pre value post Hf Hl Hab.
    assert (Hn : getOS h = strings.Trim value (String DQUOTE EmptyString)).
    { unfold getOS. rewrite Hf, Hl.
      rewrite getOS_scan_first by (trivial; apply HasPrefix_append).
      now rewrite TrimPrefix_append. }
    split; [exact Hn|]. rewrite Hn. split.
    + intros ch t E. apply Trim_head in E. intros ->. discriminate.
    + intros body ch E. apply Trim_last in E. intros ->. discriminate.
  - reflexivity.
Qed.

Lemma getOS_pretty_name_witness :
  getOS (P := linux_amd64) (hostWithFile "/etc/os-release" os_release_test) =
  strings.Trim (String DQUOTE ("Test OS 1.0" ++ String DQUOTE EmptyString))
    (String DQUOTE EmptyString).
Proof.
  destruct (getOS_pretty_name linux_amd64
              (hostWithFile "/etc/os-release" os_release_test))
    as (_ & _ & Hfirst & _).
  apply (Hfirst os_release_test ["NAME=Test"]
           (String DQUOTE ("Test OS 1.0" ++ String DQUOTE EmptyString))
           ["ID=test"]); try reflexivity.
  intros l [<-|[]]. reflexivity.
Defined.

(** C9.  For every snapshot the presenter writes as many lines as the
    longer of the logo and the data has, 15 with the logo of 6 lines and
    the data of 15: line [i] joins the logo line [i] and the data line
    [i], the empty string standing for a line that the shorter sequence
    does not have. *)
Theorem printInfo_lines (P : Platform) (h : HostEnv) (info : SystemInfo) :
  exists out,
    printInfo h info = Ret out /\
    List.length out = Nat.max (List.length logo) (List.length (data h info)) /\
    List.length out = 15%nat /\
    out = map (fun i => joined (nth i logo EmptyString)
                          (nth i (data h info) EmptyString))
            (seq 0 (List.length out)).
Proof.
  unfold printInfo. rewrite printLoop_map.
  eexists. split; [reflexivity|].
  rewrite length_map, length_seq.
  split; [|split; reflexivity].
  destruct (List.length logo <? List.length (data h info))%nat eqn:E.
  - apply Nat.ltb_lt in E. lia.
  - apply Nat.ltb_ge in E. lia.
Qed.




(** * Further properties *)

(** ** The whole run *)

Lemma getSystemInfo_returns (P : Platform) (h : HostEnv) :
  exists info, getSystemInfo h = Ret info.
Proof.
  destruct (getCPU_returns h) as [cpu Hcpu].
  destruct (getUptime_returns P h) as [up Hup].
  destruct (getMemory_returns h) as [mem Hmem].
  unfold getSystemInfo. rewrite Hcpu, Hup, Hmem. cbn [bind]. eauto.
Qed.

(** X1.  On every host the program runs to its end without a panic and
    writes 15 lines: the collection returns a record, the presenter is
    given that record, and its loop reads no line out of range. *)
Theorem main_prints_15_lines (P : Platform) (h : HostEnv) :
  exists info out,
    getSystemInfo h = Ret info /\
    printInfo h info = Ret out /\
    main h = Ret out /\
    List.length out = 15%nat.
Proof.
  destruct (getSystemInfo_returns P h) as [info Hinfo].
  exists info. unfold main. rewrite Hinfo. cbn [bind].
  unfold printInfo. rewrite printLoop_map.
  eexists. repeat split.
Qed.

(** ** The record, field by field *)

(** The fields of the record [getSystemInfo] returns, resolver by
    resolver. *)
Lemma getSystemInfo_fields (P : Platform) (h : HostEnv) (info : SystemInfo) :
  getSystemInfo h = Ret info ->
  OS info = getOS h /\
  Kernel info = runCmd h "uname" ["-r"] /\
  Arch info = GOARCH /\
  Host info = getEnvOrDefault h "HOSTNAME" "N/A" /\
  User info = getEnvOrDefault h "USER" "N/A" /\
  Shell info = getEnvOrDefault h "SHELL" "N/A" /\
  Term info = getEnvOrDefault h "TERM" "N/A" /\
  getCPU h = Ret (CPU info) /\
  getUptime h = Ret (Uptime info) /\
  getMemory h = Ret (MemTotal info, MemUsed info) /\
  getDisk h "/" = (DiskTotal info, DiskUsed info).
Proof.
  destruct (getCPU_returns h) as [cpu Hcpu].
  destruct (getUptime_returns P h) as [up Hup].
  destruct (getMemory_returns h) as [[total used] Hmem].
  unfold getSystemInfo. rewrite Hcpu, Hup, Hmem. cbn [bind].
  intros E. inversion E. cbn [fst snd].
  repeat split. now destruct (getDisk h "/").
Qed.

Lemma getEnvOrDefault_nonempty (h : HostEnv) (key defaultVal : string) :
  defaultVal <> EmptyString -> getEnvOrDefault h key defaultVal <> EmptyString.
Proof.
  intros Hd. unfold getEnvOrDefault.
  destruct (String.eqb_spec (Getenv h key) EmptyString); assumption.
Qed.

(** X2.  In every record the collection returns, the host name, the user,
    the shell and the terminal are never the empty string: a variable that
    is not set, or set to the empty string, shows as the default. *)
Theorem session_fields_not_empty (P : Platform) (h : HostEnv)
  (info : SystemInfo) :
  getSystemInfo h = Ret info ->
  Host info <> EmptyString /\ User info <> EmptyString /\
  Shell info <> EmptyString /\ Term info <> EmptyString.
Proof.
  intros Hi.
  destruct (getSystemInfo_fields P h info Hi)
    as (_ & _ & _ & -> & -> & -> & -> & _).
  repeat split; apply getEnvOrDefault_nonempty; discriminate.
Qed.

Lemma session_fields_not_empty_witness :
  Host sampleInfo <> EmptyString /\ User sampleInfo <> EmptyString /\
  Shell sampleInfo <> EmptyString /\ Term sampleInfo <> EmptyString.
Proof.
  apply (session_fields_not_empty linux_amd64 sampleHost sampleInfo).
  reflexivity.
Defined.

(** X3.  For a number of seconds that is not negative the uptime
    resolver shows hours below 24 and minutes below 60, and what it shows
    accounts for all the time but the last seconds of a minute:
    [days * 86400 + hours * 3600 + minutes * 60] is at most [s] and
    misses it by less than 60.  Days appear exactly from one day on. *)
Theorem getUptime_decomposition (P : Platform) (h : HostEnv)
  (data tok : string) (rest : list string) (seconds : spec_float) :
  file h "/proc/uptime" = Some data ->
  strings.Fields data = tok :: rest ->
  ParseFloat tok = Some seconds ->
  0 <= float64.toInt intOfOther seconds ->
  exists days hours minutes,
    0 <= days /\ 0 <= hours < 24 /\ 0 <= minutes < 60 /\
    0 <= float64.toInt intOfOther seconds
         - (days * 86400 + hours * 3600 + minutes * 60) < 60 /\
    (86400 <= float64.toInt intOfOther seconds ->
     getUptime h =
     Ret (fmt.d days ++ "d " ++ fmt.d hours ++ "h " ++ fmt.d minutes ++ "m")) /\
    (float64.toInt intOfOther seconds < 86400 ->
     days = 0 /\
     getUptime h = Ret (fmt.d hours ++ "h " ++ fmt.d minutes ++ "m")).
Proof.
  intros Hf HF Hp Hs.
  set (s := float64.toInt intOfOther seconds) in *.
  assert (Hu : getUptime h = Ret (formatUptime s)).
  { unfold getUptime. rewrite Hf, HF. cbn. now rewrite Hp. }
  exists (Z.quot s 86400), (Z.quot (Z.rem s 86400) 3600),
    (Z.quot (Z.rem s 3600) 60).
  rewrite Hu. unfold formatUptime.
  rewrite !Z.rem_mod_nonneg, !Z.quot_div_nonneg
    by (try apply Z.mod_pos_bound; lia).
  assert (Hd : (s / 86400 >? 0) = (86400 <=? s)).
  { destruct (Z.leb_spec 86400 s).
    - rewrite Z.gtb_ltb. apply Z.ltb_lt.
      assert (1 <= s / 86400) by (apply Z.div_le_lower_bound; lia). lia.
    - rewrite Z.gtb_ltb. apply Z.ltb_ge.
      rewrite Z.div_small by lia. lia. }
  rewrite Hd.
  split; [|split; [|split; [|split; [|split]]]];
    try (Z.div_mod_to_equations; lia).
  - intros H1. now replace (86400 <=? s) with true
      by (symmetry; apply Z.leb_le; lia).
  - intros H1. replace (86400 <=? s) with false
      by (symmetry; apply Z.leb_gt; lia).
    split; [apply Z.div_small; lia|reflexivity].
Qed.

Lemma getUptime_decomposition_witness :
  exists days hours minutes,
    0 <= days /\ 0 <= hours < 24 /\ 0 <= minutes < 60 /\
    0 <= 90061 - (days * 86400 + hours * 3600 + minutes * 60) < 60 /\
    (86400 <= 90061 ->
     getUptime (P := linux_amd64) (hostWithFile "/proc/uptime" "90061 170000") =
     Ret (fmt.d days ++ "d " ++ fmt.d hours ++ "h " ++ fmt.d minutes ++ "m")) /\
    (90061 < 86400 ->
     days = 0 /\
     getUptime (P := linux_amd64) (hostWithFile "/proc/uptime" "90061 170000") =
     Ret (fmt.d hours ++ "h " ++ fmt.d minutes ++ "m")).
Proof.
  apply (getUptime_decomposition linux_amd64
           (hostWithFile "/proc/uptime" "90061 170000")
           "90061 170000" "90061" ["170000"] (float64.ofZ 90061)
           eq_refl eq_refl eq_refl).
  vm_compute. discriminate.
Defined.

(** ** More on the scanner and on [getMemory] *)

Lemma rawLines_LF_nonempty (a : string) : bufio.rawLines (a ++ LF) <> [].
Proof.
  induction a as [|ch a IH]; cbn [append bufio.rawLines].
  - discriminate.
  - destruct (Ascii.eqb ch NL); [discriminate|].
    destruct (bufio.rawLines (a ++ LF)); [contradiction|discriminate].
Qed.

(** The lines of a content that follows a complete line come after the
    lines up to that line. *)
Lemma rawLines_app (a b : string) :
  bufio.rawLines (a ++ LF ++ b) =
  (bufio.rawLines (a ++ LF) ++ bufio.rawLines b)%list.
Proof.
  induction a as [|ch a IH].
  - reflexivity.
  - pose proof (rawLines_LF_nonempty a) as Hne.
    cbn [append bufio.rawLines].
    destruct (Ascii.eqb ch NL).
    + now rewrite IH.
    + rewrite IH.
      destruct (bufio.rawLines (a ++ LF)); [contradiction|].
      reflexivity.
Qed.

Lemma takeWhile_app {A : Type} (f : A -> bool) (xs ys : list A) :
  exists rest, bufio.takeWhile f (xs ++ ys) = (bufio.takeWhile f xs ++ rest)%list.
Proof.
  induction xs as [|x xs [rest IH]]; cbn [app bufio.takeWhile].
  - now exists (bufio.takeWhile f ys).
  - destruct (f x).
    + exists rest. now rewrite IH.
    + now exists [].
Qed.

Lemma scanLines_app (a b : string) :
  exists rest,
    bufio.scanLines (a ++ LF ++ b) = (bufio.scanLines (a ++ LF) ++ rest)%list.
Proof.
  unfold bufio.scanLines. rewrite rawLines_app.
  destruct (takeWhile_app bufio.fits (bufio.rawLines (a ++ LF))
              (bufio.rawLines b)) as [rest ->].
  exists (map bufio.dropCR rest). apply map_app.
Qed.

(** Once both variables are positive the loop has stopped: lines that
    follow change nothing. *)
Lemma getMemory_scan_stops (lines extra : list string) :
  forall mt0 ma0 mt ma,
    (mt0 >? 0) && (ma0 >? 0) = false ->
    getMemory_scan lines mt0 ma0 = Ret (mt, ma) ->
    0 < mt -> 0 < ma ->
    getMemory_scan (lines ++ extra) mt0 ma0 = Ret (mt, ma).
Proof.
  induction lines as [|line rest IH]; intros mt0 ma0 mt ma H0 E Hmt Hma.
  - cbn in E. inversion E. subst.
    replace (mt >? 0) with true in H0
      by (symmetry; rewrite Z.gtb_ltb; now apply Z.ltb_lt).
    replace (ma >? 0) with true in H0
      by (symmetry; rewrite Z.gtb_ltb; now apply Z.ltb_lt).
    discriminate.
  - cbn [app]. rewrite getMemory_scan_step in *.
    destruct (lineValue line) as [val|]; [|now apply IH].
    cbv zeta in *.
    match goal with
    | |- context [if ?b then Ret _ else _] => destruct b eqn:Hb
    end; [exact E|now apply IH].
Qed.

Lemma getMemory_scan_of_entries (lines : list string) (T A : Z)
  (okT okA : bool) :
  entry "MemTotal:" lines T okT -> entry "MemAvailable:" lines A okA ->
  getMemory_scan lines 0 0 = Ret (T, A).
Proof.
  intros HT HA.
  destruct (getMemory_scan_returns lines 0 0) as (mt & ma & E & _);
    [lia|lia|].
  rewrite E.
  rewrite (getMemory_scan_finds_total _ T okT HT _ _ _ E).
  rewrite (getMemory_scan_finds_avail _ A okA HA _ _ _ E).
  reflexivity.
Qed.

(** X4.  A readable memory file without a [MemAvailable:] line makes the
    memory resolver report all memory as used: Used = Total, which is
    [T / 1024] when the file holds one [MemTotal:] line with the count
    [T]. *)
Theorem getMemory_without_available (h : HostEnv) (content : string) :
  file h "/proc/meminfo" = Some content ->
  absent "MemAvailable:" (bufio.scanLines content) ->
  (exists total, getMemory h = Ret (total, total)) /\
  (forall T okT,
      entry "MemTotal:" (bufio.scanLines content) T okT ->
      getMemory h = Ret (Z.quot T 1024, Z.quot T 1024)).
Proof.
  intros Hf Hab.
  destruct (getMemory_readable h content Hf) as (mt & ma & Es & ->).
  rewrite (getMemory_scan_keeps_avail _ _ _ _ _ Hab Es).
  change (Z.quot 0 1024) with 0. rewrite Z.sub_0_r.
  split; [eauto|].
  intros T okT HT.
  now rewrite (getMemory_scan_finds_total _ T okT HT _ _ _ Es).
Qed.

Lemma getMemory_without_available_witness :
  exists total,
    getMemory (hostWithFile "/proc/meminfo" ("MemTotal: 4096 kB" ++ LF)) =
    Ret (total, total).
Proof.
  apply (getMemory_without_available
           (hostWithFile "/proc/meminfo" ("MemTotal: 4096 kB" ++ LF))
           ("MemTotal: 4096 kB" ++ LF) eq_refl).
  intros l [<-|[]]. reflexivity.
Defined.

(** X5.  The scan of the memory file stops at the line that makes both
    counts positive: whatever follows that line, further [MemTotal:] or
    [MemAvailable:] lines included, does not change the result. *)
Theorem getMemory_ignores_what_follows (h : HostEnv)
  (content extra : string) (T A : Z) (okT okA : bool) :
  file h "/proc/meminfo" = Some (content ++ LF ++ extra) ->
  entry "MemTotal:" (bufio.scanLines (content ++ LF)) T okT ->
  entry "MemAvailable:" (bufio.scanLines (content ++ LF)) A okA ->
  0 < T -> 0 < A ->
  getMemory h = Ret (Z.quot T 1024, Z.quot T 1024 - Z.quot A 1024).
Proof.
  intros Hf HT HA HTp HAp.
  destruct (getMemory_readable h _ Hf) as (mt & ma & Es & ->).
  destruct (scanLines_app content extra) as [rest Hrest].
  rewrite Hrest in Es.
  pose proof (getMemory_scan_of_entries _ T A okT okA HT HA) as E0.
  rewrite (getMemory_scan_stops _ rest 0 0 T A eq_refl E0 HTp HAp) in Es.
  inversion Es. reflexivity.
Qed.

Lemma getMemory_ignores_what_follows_witness :
  getMemory
    (hostWithFile "/proc/meminfo"
       (("MemTotal: 8192 kB" ++ LF ++ "MemAvailable: 2048 kB") ++ LF
        ++ ("MemTotal: 1024 kB" ++ LF))) =
  Ret (Z.quot 8192 1024, Z.quot 8192 1024 - Z.quot 2048 1024).
Proof.
  apply (getMemory_ignores_what_follows
           (hostWithFile "/proc/meminfo"
              (("MemTotal: 8192 kB" ++ LF ++ "MemAvailable: 2048 kB") ++ LF
               ++ ("MemTotal: 1024 kB" ++ LF)))
           ("MemTotal: 8192 kB" ++ LF ++ "MemAvailable: 2048 kB")
           ("MemTotal: 1024 kB" ++ LF) 8192 2048 true true eq_refl).
  - exists [], "MemTotal: 8192 kB", ["MemAvailable: 2048 kB"],
      "MemTotal:", "8192", ["kB"].
    repeat split. intros l [[]|[<-|[]]]. reflexivity.
  - exists ["MemTotal: 8192 kB"], "MemAvailable: 2048 kB", [],
      "MemAvailable:", "2048", ["kB"].
    repeat split. intros l [[<-|[]]|[]]. reflexivity.
  - lia.
  - lia.
Defined.

(** X6.  Whatever the memory file holds, the pair the memory resolver
    returns stays far inside the range of an [int]: Total lies between
    [- 2 ^ 53] and [2 ^ 53] and Used between [- 2 ^ 54] and [2 ^ 54], so
    the subtraction that gives Used never wraps around. *)
Theorem getMemory_in_range (h : HostEnv) (total used : Z) :
  getMemory h = Ret (total, used) ->
  - 2 ^ 53 <= total <= 2 ^ 53 /\ - 2 ^ 54 <= used <= 2 ^ 54.
Proof.
  destruct (file h "/proc/meminfo") as [content|] eqn:Hf.
  - destruct (getMemory_readable h content Hf) as (mt & ma & Es & ->).
    destruct (getMemory_scan_returns (bufio.scanLines content) 0 0)
      as (mt' & ma' & E & Ht & Ha); [lia|lia|].
    rewrite Es in E. inversion E. subst mt' ma'.
    intros E'. inversion E'.
    pose proof (quot_1024_range mt Ht). pose proof (quot_1024_range ma Ha).
    lia.
  - rewrite getMemory_unavailable by assumption.
    intros E. inversion E. lia.
Qed.

Lemma getMemory_in_range_witness :
  - 2 ^ 53 <= 4 <= 2 ^ 53 /\ - 2 ^ 54 <= 6 <= 2 ^ 54.
Proof.
  apply (getMemory_in_range (hostWithFile "/proc/meminfo" meminfo_negative)).
  reflexivity.
Defined.

(** ** More on [getDisk] and on the percentages *)

Lemma wrapU64_range (z : Z) : 0 <= wrapU64 z < 2 ^ 64.
Proof. unfold wrapU64. apply Z.mod_pos_bound. lia. Qed.

Lemma float64Value_uint64 (n : Z) :
  0 <= n < 2 ^ 64 -> 0 <= float64Value n <= 2 ^ 64.
Proof.
  intros Hn. split; [apply float64Value_lt; assumption|].
  transitivity (float64Value (2 ^ 64 - 1)).
  - apply float64Value_mono. lia.
  - apply Z.eq_le_incl. reflexivity.
Qed.

(** [getDisk] on any statistics, the wrap-around of the three byte counts
    written out. *)
Lemma getDisk_general (P : Platform) (h : HostEnv) (path : string)
  (st : Statfs_t) :
  statfs h path = Some st ->
  let totalBytes := wrapU64 (Blocks st * wrapU64 (Bsize st)) in
  let freeBytes := wrapU64 (Bavail st * wrapU64 (Bsize st)) in
  getDisk h path =
  (float64Value totalBytes / 2 ^ 30,
   float64Value (wrapU64 (totalBytes - freeBytes)) / 2 ^ 30).
Proof.
  intros Hst totalBytes freeBytes. unfold getDisk. rewrite Hst.
  fold totalBytes freeBytes.
  now rewrite !gigabytes_value by apply wrapU64_range.
Qed.

Lemma gigabytes_bounds (n : Z) :
  0 <= n < 2 ^ 64 -> 0 <= float64Value n / 2 ^ 30 <= 2 ^ 34.
Proof.
  intros Hn. pose proof (float64Value_uint64 n Hn) as Hv.
  split; [apply Z.div_pos; lia|].
  apply Z.div_le_upper_bound; lia.
Qed.

(** X7.  On every result of the query, also one whose byte counts wrap
    around, the disk resolver returns a Total and a Used between 0 and
    [2 ^ 34] GB; the conversion back to [int] always fits, so that the
    pair does not depend on what the platform does with a conversion that
    does not fit. *)
Theorem getDisk_bounds (P : Platform) (h : HostEnv) (path : string) :
  0 <= fst (getDisk h path) <= 2 ^ 34 /\
  0 <= snd (getDisk h path) <= 2 ^ 34 /\
  forall Q : Platform, getDisk (P := Q) h path = getDisk (P := P) h path.
Proof.
  destruct (statfs h path) as [st|] eqn:Hst.
  - split; [|split].
    + rewrite (getDisk_general P h path st Hst). cbn [fst].
      apply gigabytes_bounds, wrapU64_range.
    + rewrite (getDisk_general P h path st Hst). cbn [snd].
      apply gigabytes_bounds, wrapU64_range.
    + intros Q. now rewrite (getDisk_general P h path st Hst),
        (getDisk_general Q h path st Hst).
  - rewrite (getDisk_unavailable P h path Hst). cbn [fst snd].
    split; [lia|split; [lia|]].
    intros Q. now rewrite (getDisk_unavailable Q h path Hst).
Qed.

(** X8.  With no block available the disk resolver reports the disk as
    full, Used = Total; with every block available it reports Used = 0.
    Both hold for every block count and block size. *)
Theorem getDisk_full_and_empty (P : Platform) (h : HostEnv) (path : string)
  (st : Statfs_t) :
  statfs h path = Some st ->
  (Bavail st = 0 -> snd (getDisk h path) = fst (getDisk h path)) /\
  (Bavail st = Blocks st -> snd (getDisk h path) = 0).
Proof.
  intros Hst. rewrite (getDisk_general P h path st Hst). cbn [fst snd].
  split.
  - intros ->. rewrite Z.mul_0_l.
    change (wrapU64 0) with 0. rewrite Z.sub_0_r.
    unfold wrapU64 at 1. rewrite Z.mod_small by apply wrapU64_range.
    reflexivity.
  - intros ->. rewrite Z.sub_diag. reflexivity.
Qed.

Lemma getDisk_full_and_empty_witness :
  snd (getDisk (P := linux_amd64)
         (hostWithStatfs {| Blocks := 50 * 2 ^ 18; Bsize := 4096; Bavail := 0 |})
         "/") =
  fst (getDisk (P := linux_amd64)
         (hostWithStatfs {| Blocks := 50 * 2 ^ 18; Bsize := 4096; Bavail := 0 |})
         "/").
Proof.
  destruct (getDisk_full_and_empty linux_amd64
              (hostWithStatfs
                 {| Blocks := 50 * 2 ^ 18; Bsize := 4096; Bavail := 0 |})
              "/" {| Blocks := 50 * 2 ^ 18; Bsize := 4096; Bavail := 0 |}
              eq_refl) as (Hfull & _).
  apply Hfull. reflexivity.
Defined.

(** A normal number divided by itself is one. *)
Lemma div_self (m : positive) (e : Z) :
  Zpos (digits2_pos m) = 53 -> - 52 <= e <= 12 ->
  float64.div (S754_finite false m e) (S754_finite false m e) =
  S754_finite false (2 ^ 52) (- 52).
Proof.
  intros Hd He.
  unfold float64.div, float64.prec, float64.emax, SFdiv, SFdiv_core_binary.
  cbn [Zdigits2]. rewrite Hd.
  assert (He' : Z.min (fexp 53 1024 (53 + e - (53 + e))) (e - e) = - 53)
    by (unfold fexp, emin; lia).
  rewrite He'.
  replace (e - e - - 53) with 53 by lia.
  rewrite div_eucl_pair.
  assert (Hq : Z.shiftl (Zpos m) 53 / Zpos m = 2 ^ 53).
  { rewrite Z.shiftl_mul_pow2 by lia. rewrite Z.mul_comm.
    apply Z.div_mul. lia. }
  assert (Hr : Z.shiftl (Zpos m) 53 mod Zpos m = 0).
  { rewrite Z.shiftl_mul_pow2 by lia. rewrite Z.mul_comm.
    apply Z.mod_mul. lia. }
  match goal with
  | |- context [new_location _ ?r] =>
    replace r with 0 by (symmetry; exact Hr)
  end.
  match goal with
  | |- binary_round_aux _ _ _ ?q _ _ = _ =>
    replace q with (2 ^ 53) by (symmetry; exact Hq)
  end.
  replace (new_location (Zpos m) 0) with loc_Exact
    by (unfold new_location; now destruct (Z.even (Zpos m))).
  reflexivity.
Qed.

(** X9.  The two ends of the scale: a resource that is used entirely
    shows 100.0 percent, one of which nothing is used shows 0.0 percent,
    for every positive total. *)
Theorem percent_ends (total : Z) :
  0 < total < 2 ^ 63 ->
  fmt.f1 (percent total total) = "100.0" /\
  fmt.f1 (percent 0 total) = "0.0".
Proof.
  intros Ht. unfold percent.
  replace (total >? 0) with true
    by (symmetry; rewrite Z.gtb_ltb; apply Z.ltb_lt; lia).
  destruct (ofZ_value total) as (m & e & Ho & Hd & He & _); [lia|].
  rewrite Ho. split.
  - rewrite div_self by assumption. reflexivity.
  - reflexivity.
Qed.

Lemma percent_ends_witness :
  fmt.f1 (percent 7812 7812) = "100.0" /\ fmt.f1 (percent 0 7812) = "0.0".
Proof. apply (percent_ends 7812). lia. Defined.

(** ** Independence of the sources *)

(** X10.  Each field of the record depends on its own source only: two
    hosts that agree on a source give the same value to the field that is
    read from it, whatever else differs between them.  In particular a
    cpuinfo file that is missing changes the CPU field and no other. *)
Theorem fields_depend_on_own_source (P : Platform) (h1 h2 : HostEnv)
  (i1 i2 : SystemInfo) :
  getSystemInfo h1 = Ret i1 -> getSystemInfo h2 = Ret i2 ->
  (file h1 "/etc/os-release" = file h2 "/etc/os-release" -> OS i1 = OS i2) /\
  (command h1 "uname" ["-r"] = command h2 "uname" ["-r"] ->
   Kernel i1 = Kernel i2) /\
  Arch i1 = Arch i2 /\
  (env h1 "HOSTNAME" = env h2 "HOSTNAME" -> Host i1 = Host i2) /\
  (env h1 "USER" = env h2 "USER" -> User i1 = User i2) /\
  (env h1 "SHELL" = env h2 "SHELL" -> Shell i1 = Shell i2) /\
  (env h1 "TERM" = env h2 "TERM" -> Term i1 = Term i2) /\
  (file h1 "/proc/cpuinfo" = file h2 "/proc/cpuinfo" -> CPU i1 = CPU i2) /\
  (file h1 "/proc/uptime" = file h2 "/proc/uptime" -> Uptime i1 = Uptime i2) /\
  (file h1 "/proc/meminfo" = file h2 "/proc/meminfo" ->
   MemTotal i1 = MemTotal i2 /\ MemUsed i1 = MemUsed i2) /\
  (statfs h1 "/" = statfs h2 "/" ->
   DiskTotal i1 = DiskTotal i2 /\ DiskUsed i1 = DiskUsed i2).
Proof.
  intros E1 E2.
  destruct (getSystemInfo_fields P h1 i1 E1)
    as (-> & -> & -> & -> & -> & -> & -> & C1 & U1 & M1 & D1).
  destruct (getSystemInfo_fields P h2 i2 E2)
    as (-> & -> & -> & -> & -> & -> & -> & C2 & U2 & M2 & D2).
  repeat match goal with |- _ /\ _ => split end; try reflexivity.
  - intros H. unfold getOS. now rewrite H.
  - intros H. unfold runCmd. now rewrite H.
  - intros H. unfold getEnvOrDefault, Getenv. now rewrite H.
  - intros H. unfold getEnvOrDefault, Getenv. now rewrite H.
  - intros H. unfold getEnvOrDefault, Getenv. now rewrite H.
  - intros H. unfold getEnvOrDefault, Getenv. now rewrite H.
  - intros H. unfold getCPU in C1, C2. rewrite H in C1.
    rewrite C1 in C2. now inversion C2.
  - intros H. unfold getUptime in U1, U2. rewrite H in U1.
    rewrite U1 in U2. now inversion U2.
  - intros H. unfold getMemory in M1, M2. rewrite H in M1.
    rewrite M1 in M2. inversion M2. now split.
  - intros H. unfold getDisk in D1, D2. rewrite H in D1.
    rewrite D1 in D2. inversion D2. now split.
Qed.

Lemma fields_depend_on_own_source_witness :
  OS bareInfo = OS bareInfoWithCPU /\
  Uptime bareInfo = Uptime bareInfoWithCPU /\
  (MemTotal bareInfo = MemTotal bareInfoWithCPU /\
   MemUsed bareInfo = MemUsed bareInfoWithCPU).
Proof.
  destruct (fields_depend_on_own_source linux_amd64 bareHost
              (hostWithFile "/proc/cpuinfo" cpuinfo_test)
              bareInfo bareInfoWithCPU eq_refl eq_refl)
    as (Hos & _ & _ & _ & _ & _ & _ & _ & Hup & Hmem & _).
  split; [exact (Hos eq_refl)|].
  split; [exact (Hup eq_refl)|exact (Hmem eq_refl)].
Defined.

(** ** Lines the scanner cannot hold *)

(** The scanner stops at the first line that does not fit its buffer. *)
Lemma scanLines_stops (content : string) (pre post : list string)
  (long : string) :
  bufio.rawLines content = (pre ++ long :: post)%list ->
  (forall l, In l pre -> bufio.fits l = true) ->
  bufio.fits long = false ->
  bufio.scanLines content = map bufio.dropCR pre.
Proof.
  intros Hr Hpre Hlong. unfold bufio.scanLines. rewrite Hr. f_equal.
  clear Hr. induction pre as [|l pre IH]; cbn [app bufio.takeWhile].
  - now rewrite Hlong.
  - rewrite (Hpre l) by now left. f_equal. apply IH.
    intros x Hx. apply Hpre. now right.
Qed.

Lemma length_spaces (n : nat) : String.length (fmt.spaces n) = n.
Proof. induction n as [|n IH]; cbn; congruence. Qed.

Lemma rawLines_spaces (n : nat) (rest : string) :
  bufio.rawLines (fmt.spaces n ++ LF ++ rest) =
  fmt.spaces n :: bufio.rawLines rest.
Proof.
  induction n as [|n IH].
  - reflexivity.
  - cbn [fmt.spaces append bufio.rawLines].
    change (Ascii.eqb " " NL) with false. cbv iota.
    now rewrite IH.
Qed.

(** X11.  A file whose first line has 65536 bytes or more reads as if it
    were empty: the scanner gives up at that line, and the resolvers that
    scan fall back, whatever the lines after it hold. *)
Theorem long_first_line_hides_the_file (P : Platform) (h : HostEnv)
  (content long : string) (post : list string) :
  bufio.rawLines content = long :: post ->
  65536 <= Z.of_nat (String.length long) ->
  (file h "/proc/cpuinfo" = Some content -> getCPU h = Ret NA) /\
  (file h "/etc/os-release" = Some content -> getOS h = GOOS) /\
  (file h "/proc/meminfo" = Some content -> getMemory h = Ret (0, 0)).
Proof.
  intros Hr Hlen.
  assert (Hs : bufio.scanLines content = []).
  { apply (scanLines_stops content [] post long Hr).
    - intros l [].
    - unfold bufio.fits, bufio.MaxScanTokenSize. apply Z.ltb_ge. exact Hlen. }
  split; [|split].
  - intros Hf. unfold getCPU. now rewrite Hf, Hs.
  - intros Hf. unfold getOS. now rewrite Hf, Hs.
  - intros Hf. unfold getMemory. now rewrite Hf, Hs.
Qed.

Lemma long_first_line_hides_the_file_witness :
  getCPU (hostWithFile "/proc/cpuinfo"
            (fmt.spaces (2 ^ 16) ++ LF ++ "model name: x")) = Ret NA.
Proof.
  destruct (long_first_line_hides_the_file linux_amd64
              (hostWithFile "/proc/cpuinfo"
                 (fmt.spaces (2 ^ 16) ++ LF ++ "model name: x"))
              (fmt.spaces (2 ^ 16) ++ LF ++ "model name: x")
              (fmt.spaces (2 ^ 16)) ["model name: x"]) as (Hcpu & _).
  - apply rawLines_spaces.
  - rewrite length_spaces. vm_compute. discriminate.
  - apply Hcpu. unfold hostWithFile, file. reflexivity.
Defined.

(** ** Runes and white space *)

Lemma asciiSpace_small (c : ascii) : asciiSpace c = true -> byteval c < 128.
Proof.
  unfold asciiSpace. intros H.
  repeat (apply orb_prop in H; destruct H as [H|H]);
    apply Z.eqb_eq in H; lia.
Qed.

Lemma asciiSpace_IsSpace (c : ascii) :
  asciiSpace c = true -> unicode.IsSpace (byteval c) = true.
Proof.
  unfold asciiSpace, unicode.IsSpace. intros H.
  repeat (apply orb_prop in H; destruct H as [H|H]);
    rewrite H; rewrite ?orb_true_r; reflexivity.
Qed.

Lemma first_not_ASCII (b : Z) :
  utf8.first b <> utf8.ASCII -> 128 <= b.
Proof.
  unfold utf8.first. destruct (Z.ltb_spec b 128); [congruence|lia].
Qed.

Lemma first_Seq_lo (b : Z) (sz : nat) (lo hi : Z) :
  utf8.first b = utf8.Seq sz lo hi -> 128 <= lo.
Proof.
  unfold utf8.first.
  repeat match goal with
         | |- context [if ?c then _ else _] => destruct c
         end; intros E; inversion E; lia.
Qed.

Lemma substring_0_0 (s : string) : substring 0 0 s = EmptyString.
Proof. now destruct s. Qed.

(** The bytes of a rune: one ASCII byte that is the rune itself, or bytes
    outside ASCII only. *)
Lemma decode_bytes (c0 : ascii) (t0 : string) :
  let s := String c0 t0 in
  let bs := substring 0 (snd (utf8.DecodeRuneInString s)) s in
  (bs = String c0 EmptyString /\
   fst (utf8.DecodeRuneInString s) = byteval c0) \/
  (bs <> EmptyString /\ highBytes bs).
Proof.
  cbv zeta. unfold utf8.DecodeRuneInString.
  destruct (utf8.first (byteval c0)) as [| |sz lo hi] eqn:F.
  - left. cbn [fst snd substring]. now rewrite substring_0_0.
  - right. cbn [fst snd substring]. rewrite substring_0_0.
    split; [discriminate|]. cbn [highBytes].
    split; [apply first_not_ASCII; congruence|exact I].
  - right.
    assert (H0 : 128 <= byteval c0) by (apply first_not_ASCII; congruence).
    pose proof (first_Seq_lo _ _ _ _ F) as Hlo.
    assert (Hone : substring 0 1 (String c0 t0) <> EmptyString /\
                   highBytes (substring 0 1 (String c0 t0))).
    { cbn [substring]. rewrite substring_0_0.
      split; [discriminate|]. cbn [highBytes]. auto. }
    destruct t0 as [|c1 t1]; [exact Hone|].
    destruct (String.length (String c0 (String c1 t1)) <? sz)%nat;
      [exact Hone|].
    destruct ((byteval c1 <? lo) || (hi <? byteval c1)) eqn:H1; [exact Hone|].
    apply orb_false_elim in H1. destruct H1 as [H1 _].
    apply Z.ltb_ge in H1.
    destruct (sz <=? 2)%nat.
    { cbn [snd substring]. rewrite substring_0_0.
      split; [discriminate|]. cbn [highBytes]. repeat split; lia. }
    destruct t1 as [|c2 t2]; [exact Hone|].
    destruct (utf8.cont (byteval c2)) eqn:H2; cbn [negb]; [|exact Hone].
    unfold utf8.cont in H2. apply andb_prop in H2. destruct H2 as [H2 _].
    apply Z.leb_le in H2.
    destruct (sz <=? 3)%nat.
    { cbn [snd substring]. rewrite substring_0_0.
      split; [discriminate|]. cbn [highBytes]. repeat split; lia. }
    destruct t2 as [|c3 t3]; [exact Hone|].
    destruct (utf8.cont (byteval c3)) eqn:H3; cbn [negb]; [|exact Hone].
    unfold utf8.cont in H3. apply andb_prop in H3. destruct H3 as [H3 _].
    apply Z.leb_le in H3.
    cbn [snd substring]. rewrite substring_0_0.
    split; [discriminate|]. cbn [highBytes]. repeat split; lia.
Qed.

Lemma runesFrom_bytes (s : string) :
  forall skip x, In x (utf8.runesFrom skip s) -> runeBytes x.
Proof.
  induction s as [|c0 t0 IH]; intros skip x; cbn [utf8.runesFrom].
  - intros [].
  - destruct skip as [|k]; [|apply IH].
    pose proof (decode_bytes c0 t0) as Hd. cbv zeta in Hd.
    destruct (utf8.DecodeRuneInString (String c0 t0)) as [r sz].
    cbn [fst snd] in Hd.
    intros [<-|Hin]; [|exact (IH _ _ Hin)].
    unfold runeBytes. cbn [fst snd].
    destruct Hd as [[Hb Hr]|Hh]; [left; eauto|now right].
Qed.

Lemma str_app_nil_r (s : string) : s ++ EmptyString = s.
Proof. induction s; cbn; congruence. Qed.

Lemma str_app_assoc (a b c : string) : (a ++ b) ++ c = a ++ (b ++ c).
Proof. induction a; cbn; congruence. Qed.

Lemma str_last (s : string) :
  s <> EmptyString -> exists u c, s = u ++ String c EmptyString.
Proof.
  induction s as [|a s IH]; [congruence|]. intros _.
  destruct s as [|b s].
  - now exists EmptyString, a.
  - destruct IH as (u & c & E); [discriminate|].
    exists (String a u), c. cbn. now rewrite <- E.
Qed.

Lemma str_last_inj (a b : string) (c d : ascii) :
  a ++ String c EmptyString = b ++ String d EmptyString -> c = d.
Proof.
  revert b. induction a as [|x a IH]; intros [|y b]; cbn; intros E;
    inversion E; subst.
  - reflexivity.
  - destruct b; discriminate.
  - destruct a; discriminate.
  - now apply (IH b).
Qed.

Lemma highBytes_last (u : string) (c : ascii) :
  highBytes (u ++ String c EmptyString) -> 128 <= byteval c.
Proof.
  induction u as [|x u IH]; cbn [append highBytes]; intros [H1 H2]; auto.
Qed.

Lemma not_asciiSpace_high (c : ascii) : 128 <= byteval c -> asciiSpace c = false.
Proof.
  intros H. destruct (asciiSpace c) eqn:E; [|reflexivity].
  apply asciiSpace_small in E. lia.
Qed.

Lemma runeBytes_first (x : Z * string) :
  runeBytes x -> strings.isSpaceRune x = false ->
  exists c t, snd x = String c t /\ asciiSpace c = false.
Proof.
  intros [(c & Hb & Hr)|(Hne & Hh)] Hs.
  - exists c, EmptyString. split; [assumption|].
    destruct (asciiSpace c) eqn:E; [|reflexivity].
    apply asciiSpace_IsSpace in E. unfold strings.isSpaceRune in Hs.
    rewrite Hr in Hs. congruence.
  - destruct (snd x) as [|c t]; [congruence|].
    exists c, t. split; [reflexivity|].
    apply not_asciiSpace_high. now destruct Hh.
Qed.

Lemma runeBytes_last (x : Z * string) :
  runeBytes x -> strings.isSpaceRune x = false ->
  exists u c, snd x = u ++ String c EmptyString /\ asciiSpace c = false.
Proof.
  intros [(c & Hb & Hr)|(Hne & Hh)] Hs.
  - exists EmptyString, c. split; [assumption|].
    destruct (asciiSpace c) eqn:E; [|reflexivity].
    apply asciiSpace_IsSpace in E. unfold strings.isSpaceRune in Hs.
    rewrite Hr in Hs. congruence.
  - destruct (str_last _ Hne) as (u & c & E).
    exists u, c. split; [assumption|].
    apply not_asciiSpace_high. rewrite E in Hh. now apply highBytes_last in Hh.
Qed.

Lemma bytesOf_cons (x : Z * string) (L : list (Z * string)) :
  strings.bytesOf (x :: L) = snd x ++ strings.bytesOf L.
Proof.
  unfold strings.bytesOf. cbn [map String.concat].
  destruct (map snd L) as [|y ys] eqn:E.
  - cbn. now rewrite str_app_nil_r.
  - reflexivity.
Qed.

Lemma bytesOf_app (A B : list (Z * string)) :
  strings.bytesOf (A ++ B) = strings.bytesOf A ++ strings.bytesOf B.
Proof.
  induction A as [|x A IH]; cbn [app].
  - reflexivity.
  - now rewrite !bytesOf_cons, IH, str_app_assoc.
Qed.

Lemma dropWhile_suffix {A : Type} (f : A -> bool) (xs : list A) :
  exists pre, xs = (pre ++ strings.dropWhile f xs)%list.
Proof.
  induction xs as [|x xs [pre IH]]; cbn [strings.dropWhile].
  - now exists [].
  - destruct (f x).
    + exists (x :: pre). cbn. now rewrite <- IH.
    + now exists [].
Qed.

Lemma dropWhile_head {A : Type} (f : A -> bool) (xs : list A) (x : A)
  (rest : list A) :
  strings.dropWhile f xs = x :: rest -> f x = false.
Proof.
  induction xs as [|y xs IH]; cbn [strings.dropWhile]; [discriminate|].
  destruct (f y) eqn:E; [exact IH|].
  intros E'. inversion E'. now subst.
Qed.

Lemma dropWhileEnd_prefix {A : Type} (f : A -> bool) (xs : list A) :
  exists suf, xs = (strings.dropWhileEnd f xs ++ suf)%list.
Proof.
  unfold strings.dropWhileEnd.
  destruct (dropWhile_suffix f (rev xs)) as [pre E].
  exists (rev pre). rewrite <- rev_app_distr, <- E. now rewrite rev_involutive.
Qed.

Lemma dropWhileEnd_last {A : Type} (f : A -> bool) (xs L : list A) (x : A) :
  strings.dropWhileEnd f xs = (L ++ [x])%list -> f x = false.
Proof.
  unfold strings.dropWhileEnd. intros E.
  apply (f_equal (@rev A)) in E.
  rewrite rev_involutive, rev_app_distr in E. cbn in E.
  now apply dropWhile_head in E.
Qed.

(** [strings.TrimSpace] leaves no white-space byte of ASCII at either
    end. *)
Lemma TrimSpace_trimmed (s : string) : trimmed (strings.TrimSpace s).
Proof.
  unfold strings.TrimSpace.
  set (ys := strings.dropWhile strings.isSpaceRune (utf8.runes s)).
  set (L := strings.dropWhileEnd strings.isSpaceRune ys).
  assert (Hwf : forall x, In x L -> runeBytes x).
  { intros x Hx. apply (runesFrom_bytes s 0).
    destruct (dropWhileEnd_prefix strings.isSpaceRune ys) as [suf E1].
    destruct (dropWhile_suffix strings.isSpaceRune (utf8.runes s)) as [pre E2].
    fold ys in E2. fold L in E1. unfold utf8.runes in E2. rewrite E2, E1.
    apply in_or_app. right. apply in_or_app. now left. }
  split.
  - intros c t E.
    destruct L as [|x L'] eqn:EL; [discriminate|].
    assert (Hx : strings.isSpaceRune x = false).
    { destruct (dropWhileEnd_prefix strings.isSpaceRune ys) as [suf E1].
      fold L in E1. rewrite EL in E1. cbn [app] in E1.
      now apply (dropWhile_head _ _ _ _ E1). }
    destruct (runeBytes_first x (Hwf x (or_introl eq_refl)) Hx)
      as (c' & t' & Hb & Hc).
    rewrite bytesOf_cons, Hb in E. cbn [append] in E. inversion E.
    now subst.
  - intros body c E.
    destruct (exists_last (l := L)) as (L' & x & EL).
    { intros ->. destruct body; discriminate. }
    assert (Hx : strings.isSpaceRune x = false)
      by (apply (dropWhileEnd_last _ ys L'); exact EL).
    assert (Hin : In x L) by (rewrite EL; apply in_or_app; right; now left).
    destruct (runeBytes_last x (Hwf x Hin) Hx) as (u & c' & Hb & Hc).
    rewrite EL, bytesOf_app, bytesOf_cons, Hb in E.
    change (strings.bytesOf []) with EmptyString in E.
    rewrite str_app_nil_r, <- str_app_assoc in E.
    apply str_last_inj in E. now subst.
Qed.

Lemma NA_trimmed : trimmed NA.
Proof.
  split.
  - intros c t E. inversion E. reflexivity.
  - intros body c E. change NA with ("N/" ++ String "A" EmptyString) in E.
    apply str_last_inj in E. now subst.
Qed.

Lemma runCmd_trimmed (h : HostEnv) (name : string) (args : list string) :
  trimmed (runCmd h name args).
Proof.
  unfold runCmd. destruct (command h name args).
  - apply TrimSpace_trimmed.
  - apply NA_trimmed.
Qed.

Lemma getCPU_trimmed (h : HostEnv) (model : string) :
  getCPU h = Ret model -> trimmed model.
Proof.
  unfold getCPU. destruct (file h "/proc/cpuinfo") as [content|].
  - destruct (getCPU_scan_returns (bufio.scanLines content)) as [[m|] Es];
      rewrite Es; cbn [bind]; intros E; inversion E; subst.
    + destruct (getCPU_scan_some _ _ Es) as (label & value & _ & _ & _ & ->).
      apply TrimSpace_trimmed.
    + apply NA_trimmed.
  - intros E. inversion E. apply NA_trimmed.
Qed.

(** X12.  In every record the collection returns, the kernel release and
    the CPU model neither begin nor end with a white-space byte of ASCII
    (tab, line feed, vertical tab, form feed, carriage return, space):
    both are trimmed, or the default. *)
Theorem kernel_and_cpu_trimmed (P : Platform) (h : HostEnv)
  (info : SystemInfo) :
  getSystemInfo h = Ret info -> trimmed (Kernel info) /\ trimmed (CPU info).
Proof.
  intros Hi.
  destruct (getSystemInfo_fields P h info Hi)
    as (_ & -> & _ & _ & _ & _ & _ & Hcpu & _).
  split; [apply runCmd_trimmed|exact (getCPU_trimmed h _ Hcpu)].
Qed.

Lemma kernel_and_cpu_trimmed_witness :
  trimmed (Kernel sampleInfo) /\ trimmed (CPU sampleInfo).
Proof.
  apply (kernel_and_cpu_trimmed linux_amd64 sampleHost sampleInfo).
  reflexivity.
Defined.

(** ** Quotes and layout *)

Lemma Trim_unquoted (s : string) :
  unquoted (strings.Trim s (String DQUOTE EmptyString)).
Proof.
  split.
  - intros c t E ->. apply Trim_head in E. discriminate.
  - intros body c E ->. apply Trim_last in E. discriminate.
Qed.

(** X13.  The name of the operating system is the name of the platform,
    or it neither begins nor ends with a double quote: the quotes around
    the value of [PRETTY_NAME] never show. *)
Theorem getOS_unquoted (P : Platform) (h : HostEnv) :
  getOS h = GOOS \/ unquoted (getOS h).
Proof.
  unfold getOS. destruct (file h "/etc/os-release") as [content|];
    [|now left].
  destruct (getOS_scan (bufio.scanLines content)) as [name|] eqn:Es;
    [|now left].
  right. destruct (getOS_scan_some _ _ Es) as (value & _ & ->).
  apply Trim_unquoted.
Qed.

(** X14.  The layout of the output, for every record.  The padding of
    the logo column to 20 counts the bytes of the colour codes: the first
    two logo lines get one space and the other four none, so that beside
    the logo the data starts after the logo line and two or three spaces;
    the nine lines below the logo start with 24 spaces. *)
Theorem printInfo_layout (P : Platform) (h : HostEnv) (info : SystemInfo) :
  printInfo h info =
  Ret (map (fun i => ("  " ++ nth i logo EmptyString ++ "   "
                        ++ nth i (data h info) EmptyString ++ LF)%string)
           (seq 0 2) ++
       map (fun i => ("  " ++ nth i logo EmptyString ++ "  "
                        ++ nth i (data h info) EmptyString ++ LF)%string)
           (seq 2 4) ++
       map (fun i => (fmt.spaces 24 ++ nth i (data h info) EmptyString
                        ++ LF)%string)
           (seq 6 9))%list.
Proof.
  unfold printInfo. rewrite printLoop_map. reflexivity.
Qed.
